(** * Humanizador + AI-Detector: a shallow embedding of the React component

    The development follows [src/humanizador_avanzado_con_ai_detector_react.jsx]:

    - JavaScript strings and the string built-ins the component calls
      ([trim], [indexOf], [lastIndexOf], [substring]);
    - JSON values and [JSON.parse] (a lexer and a push-down parser, both
      total and structurally recursive);
    - the component state, the browser around it (injected global, the two
      storages, dialogs, clipboard, network) and the event log;
    - the handlers [handleHumanize], [handleCopy], [handleSave], the "Limpiar"
      closure and the buttons of the rendered view;
    - the properties of the specification, one theorem per claim. *)

From Stdlib Require Import ZArith NArith String Ascii DecimalString Lia.
From stdpp Require Import base option list gmap.

Local Open Scope N_scope.

(* ====================================================================== *)
(** ** JavaScript strings *)
(* ====================================================================== *)

(** A JavaScript string is its sequence of UTF-16 code units. *)
Abbreviation jsstring := (list N).

Module Lit.

(** Literals are written as Rocq strings. The file is UTF-8, so a literal
    is decoded from its bytes to the code units the JavaScript source
    holds. *)
Fixpoint utf8_decode (bs : list N) : jsstring :=
  match bs with
  | [] => []
  | b0 :: r0 =>
      if b0 <? 128 then b0 :: utf8_decode r0
      else if b0 <? 224 then
        match r0 with
        | b1 :: r1 => ((b0 mod 32) * 64 + b1 mod 64) :: utf8_decode r1
        | _ => []
        end
      else if b0 <? 240 then
        match r0 with
        | b1 :: b2 :: r2 =>
            ((b0 mod 16) * 4096 + (b1 mod 64) * 64 + b2 mod 64) :: utf8_decode r2
        | _ => []
        end
      else
        match r0 with
        | b1 :: b2 :: b3 :: r3 =>
            let cp := (b0 mod 8) * 262144 + (b1 mod 64) * 4096
                      + (b2 mod 64) * 64 + b3 mod 64 - 65536 in
            (55296 + cp / 1024) :: (56320 + cp mod 1024) :: utf8_decode r3
        | _ => []
        end
  end.

Definition str (s : string) : jsstring :=
  utf8_decode (map Byte.to_N (list_byte_of_string s)).

(** [strq] is [str] for literals that contain double quotes: every
    apostrophe of the Rocq literal stands for a double quote. *)
Definition strq (s : string) : jsstring :=
  map (fun c => if c =? 39 then 34 else c) (str s).

(** The line feed a template literal writes as backslash-n. *)
Definition nl : jsstring := [10].

(** Decimal digits of a natural number, as [String(n)] prints them. *)
Definition dec (n : N) : jsstring :=
  str (NilEmpty.string_of_uint (N.to_uint n)).

End Lit.
Import Lit.

Module JSString.

(** WhiteSpace and LineTerminator code units of ECMAScript, the ones
    [String.prototype.trim] removes. *)
Definition is_space (c : N) : bool :=
  (9 <=? c) && (c <=? 13)
  || (c =? 32) || (c =? 160) || (c =? 5760)
  || (8192 <=? c) && (c <=? 8202)
  || (c =? 8232) || (c =? 8233) || (c =? 8239) || (c =? 8287)
  || (c =? 12288) || (c =? 65279).

Fixpoint trimStart (s : jsstring) : jsstring :=
  match s with
  | c :: r => if is_space c then trimStart r else s
  | [] => []
  end.

Definition trimEnd (s : jsstring) : jsstring := rev (trimStart (rev s)).

Definition trim (s : jsstring) : jsstring := trimEnd (trimStart s).

(** [s.indexOf(c)] for a one-unit search string: the first position of
    [c], or -1. *)
Fixpoint indexOf (s : jsstring) (c : N) : Z :=
  match s with
  | [] => (-1)%Z
  | d :: r =>
      if d =? c then 0%Z
      else match indexOf r c with
           | Zneg _ => (-1)%Z
           | i => (i + 1)%Z
           end
  end.

(** [s.lastIndexOf(c)]: the last position of [c], or -1. *)
Fixpoint lastIndexOf (s : jsstring) (c : N) : Z :=
  match s with
  | [] => (-1)%Z
  | d :: r =>
      match lastIndexOf r c with
      | Zneg _ => if d =? c then 0%Z else (-1)%Z
      | i => (i + 1)%Z
      end
  end.

(** [s.substring(a, b)]: both indices are clamped to [0, length], and
    swapped when the first is the larger one. *)
Definition substring (s : jsstring) (a b : Z) : jsstring :=
  let len := Z.of_nat (length s) in
  let a' := Z.min (Z.max a 0) len in
  let b' := Z.min (Z.max b 0) len in
  let from := Z.min a' b' in
  let to := Z.max a' b' in
  take (Z.to_nat (to - from)) (drop (Z.to_nat from) s).

End JSString.

(* ====================================================================== *)
(** ** JSON values and [JSON.parse] *)
(* ====================================================================== *)

(** A Number is an IEEE 754 double. A finite one is written by its exact
    decimal expansion, sign * mant * 10^exp10, in the one form whose
    mantissa does not end in 0 (zero is mantissa 0, exponent 0, and keeps
    its sign): every double has such an expansion, and [Double.to_double]
    below yields nothing else. *)
Inductive JSNum : Type :=
| NaN
| Inf (neg : bool)
| Dec (neg : bool) (mant : N) (exp10 : Z).

Module Double.

(** The zeros a decimal numeral ends in. *)
Fixpoint leading_zeros (u : Decimal.uint) : nat :=
  match u with
  | Decimal.D0 u' => S (leading_zeros u')
  | _ => 0%nat
  end.

Definition trailing_zeros (m : N) : N :=
  N.of_nat (leading_zeros (Decimal.rev (N.to_uint m))).

(** n * 2^k, exactly, as a decimal whose mantissa does not end in 0. *)
Definition of_binary (neg : bool) (n : N) (k : Z) : JSNum :=
  if n =? 0 then Dec neg 0 0
  else
    let (m, e) := if (0 <=? k)%Z then (n * 2 ^ Z.to_N k, 0%Z)
                  else (n * 5 ^ Z.to_N (- k), k) in
    let z := trailing_zeros m in
    Dec neg (m / 10 ^ z) (e + Z.of_N z).

(** The double nearest to sign * m * 10^e10, ties to the even mantissa:
    what a numeric literal denotes. With p/q the number, [k] is the binary
    exponent of the last of the 53 bits (not below -1074, where the
    subnormals are), [n] the quotient there, rounded by the remainder. *)
Definition to_double (neg : bool) (m : N) (e10 : Z) : JSNum :=
  if m =? 0 then Dec neg 0 0
  else
    let p := if (0 <=? e10)%Z then m * 10 ^ Z.to_N e10 else m in
    let q := if (0 <=? e10)%Z then 1 else 10 ^ Z.to_N (- e10) in
    let quot (k : Z) := if (0 <=? k)%Z then p / (q * 2 ^ Z.to_N k)
                        else (p * 2 ^ Z.to_N (- k)) / q in
    let k0 := (Z.of_N (N.log2 p) - Z.of_N (N.log2 q) - 52)%Z in
    let k1 := if quot k0 <? 2 ^ 52 then (k0 - 1)%Z else k0 in
    let k := Z.max k1 (-1074) in
    let num := if (0 <=? k)%Z then p else p * 2 ^ Z.to_N (- k) in
    let den := if (0 <=? k)%Z then q * 2 ^ Z.to_N k else q in
    let n := num / den in
    let r := num mod den in
    let up := (den <? 2 * r) || ((2 * r =? den) && N.odd n) in
    let n' := if up then n + 1 else n in
    if (971 <? k)%Z || ((k =? 971)%Z && (n' =? 2 ^ 53)) then Inf neg
    else of_binary neg n' k.

End Double.

#[warnings="-register-all"]
Inductive JSValue : Type :=
| JNull
| JBool (b : bool)
| JNum (n : JSNum)
| JString (s : jsstring)
| JArray (items : list JSValue)
| JObject (members : list (jsstring * JSValue)).

Module JSON.

Inductive token : Type :=
| TLBrace | TRBrace | TLBrack | TRBrack | TColon | TComma
| TStr (s : jsstring)
| TNum (n : JSNum)
| TTrue | TFalse | TNull.

(** *** Lexer: one code unit at a time *)

Inductive numphase : Type :=
| PhMinus   (* after the sign, a digit must follow *)
| PhZero    (* after the single leading zero *)
| PhInt     (* inside the integer part *)
| PhDot     (* after the point, a digit must follow *)
| PhFrac    (* inside the fraction *)
| PhE       (* after e or E *)
| PhESign   (* after the sign of the exponent *)
| PhExp.    (* inside the exponent *)

Record numacc : Type := NumAcc {
  n_neg : bool;    (* a leading minus was read *)
  n_mant : N;      (* the digits read so far, point ignored *)
  n_frac : N;      (* how many of them are after the point *)
  n_eneg : bool;   (* the exponent has a minus *)
  n_exp : N        (* the exponent digits *)
}.

(** The Number a numeric literal denotes: the double nearest to it. *)
Definition num_value (a : numacc) : JSNum :=
  Double.to_double (n_neg a) (n_mant a)
      ((if n_eneg a then - Z.of_N (n_exp a) else Z.of_N (n_exp a))
       - Z.of_N (n_frac a))%Z.

Inductive lexstate : Type :=
| LStart
| LStr (acc : jsstring)                 (* inside a string; [acc] reversed *)
| LEsc (acc : jsstring)                 (* after a backslash *)
| LHex (acc : jsstring) (k : nat) (v : N)  (* [k] hex digits still to read *)
| LNum (ph : numphase) (a : numacc)
| LLit (rest : jsstring) (t : token).   (* inside true, false or null *)

Definition is_ws (c : N) : bool :=
  (c =? 32) || (c =? 9) || (c =? 10) || (c =? 13).

Definition is_digit (c : N) : bool := (48 <=? c) && (c <=? 57).

Definition hex_digit (c : N) : option N :=
  if (48 <=? c) && (c <=? 57) then Some (c - 48)
  else if (65 <=? c) && (c <=? 70) then Some (c - 55)
  else if (97 <=? c) && (c <=? 102) then Some (c - 87)
  else None.

(** The first code unit of a token. *)
Definition start (c : N) : option (lexstate * list token) :=
  if is_ws c then Some (LStart, [])
  else if c =? 123 then Some (LStart, [TLBrace])
  else if c =? 125 then Some (LStart, [TRBrace])
  else if c =? 91 then Some (LStart, [TLBrack])
  else if c =? 93 then Some (LStart, [TRBrack])
  else if c =? 58 then Some (LStart, [TColon])
  else if c =? 44 then Some (LStart, [TComma])
  else if c =? 34 then Some (LStr [], [])
  else if c =? 45 then Some (LNum PhMinus (NumAcc true 0 0 false 0), [])
  else if c =? 48 then Some (LNum PhZero (NumAcc false 0 0 false 0), [])
  else if is_digit c then Some (LNum PhInt (NumAcc false (c - 48) 0 false 0), [])
  else if c =? 116 then Some (LLit (str "rue") TTrue, [])
  else if c =? 102 then Some (LLit (str "alse") TFalse, [])
  else if c =? 110 then Some (LLit (str "ull") TNull, [])
  else None.

(** A number ends at the first code unit that cannot continue it; that
    unit then starts the next token. *)
Definition end_num (a : numacc) (c : N) : option (lexstate * list token) :=
  '(st, toks) ← start c; Some (st, TNum (num_value a) :: toks).

Definition push_digit (a : numacc) (c : N) : numacc :=
  NumAcc (n_neg a) (n_mant a * 10 + (c - 48)) (n_frac a) (n_eneg a) (n_exp a).

Definition push_frac (a : numacc) (c : N) : numacc :=
  NumAcc (n_neg a) (n_mant a * 10 + (c - 48)) (n_frac a + 1) (n_eneg a) (n_exp a).

Definition push_exp (a : numacc) (c : N) : numacc :=
  NumAcc (n_neg a) (n_mant a) (n_frac a) (n_eneg a) (n_exp a * 10 + (c - 48)).

Definition set_eneg (a : numacc) (b : bool) : numacc :=
  NumAcc (n_neg a) (n_mant a) (n_frac a) b (n_exp a).

Definition is_e (c : N) : bool := (c =? 101) || (c =? 69).

Definition num_step (ph : numphase) (a : numacc) (c : N)
  : option (lexstate * list token) :=
  match ph with
  | PhMinus =>
      if c =? 48 then Some (LNum PhZero a, [])
      else if is_digit c then Some (LNum PhInt (push_digit a c), [])
      else None
  | PhZero =>
      if c =? 46 then Some (LNum PhDot a, [])
      else if is_e c then Some (LNum PhE a, [])
      else if is_digit c then None
      else end_num a c
  | PhInt =>
      if is_digit c then Some (LNum PhInt (push_digit a c), [])
      else if c =? 46 then Some (LNum PhDot a, [])
      else if is_e c then Some (LNum PhE a, [])
      else end_num a c
  | PhDot =>
      if is_digit c then Some (LNum PhFrac (push_frac a c), []) else None
  | PhFrac =>
      if is_digit c then Some (LNum PhFrac (push_frac a c), [])
      else if is_e c then Some (LNum PhE a, [])
      else end_num a c
  | PhE =>
      if c =? 43 then Some (LNum PhESign a, [])
      else if c =? 45 then Some (LNum PhESign (set_eneg a true), [])
      else if is_digit c then Some (LNum PhExp (push_exp a c), [])
      else None
  | PhESign =>
      if is_digit c then Some (LNum PhExp (push_exp a c), []) else None
  | PhExp =>
      if is_digit c then Some (LNum PhExp (push_exp a c), [])
      else end_num a c
  end.

Definition esc_step (acc : jsstring) (c : N) : option (lexstate * list token) :=
  if c =? 34 then Some (LStr (34 :: acc), [])
  else if c =? 92 then Some (LStr (92 :: acc), [])
  else if c =? 47 then Some (LStr (47 :: acc), [])
  else if c =? 98 then Some (LStr (8 :: acc), [])
  else if c =? 102 then Some (LStr (12 :: acc), [])
  else if c =? 110 then Some (LStr (10 :: acc), [])
  else if c =? 114 then Some (LStr (13 :: acc), [])
  else if c =? 116 then Some (LStr (9 :: acc), [])
  else if c =? 117 then Some (LHex acc 4 0, [])
  else None.

Definition step (st : lexstate) (c : N) : option (lexstate * list token) :=
  match st with
  | LStart => start c
  | LStr acc =>
      if c =? 34 then Some (LStart, [TStr (rev acc)])
      else if c =? 92 then Some (LEsc acc, [])
      else if c <? 32 then None
      else Some (LStr (c :: acc), [])
  | LEsc acc => esc_step acc c
  | LHex acc k v =>
      d ← hex_digit c;
      match k with
      | 1%nat => Some (LStr ((v * 16 + d) :: acc), [])
      | _ => Some (LHex acc (pred k) (v * 16 + d), [])
      end
  | LNum ph a => num_step ph a c
  | LLit rest t =>
      match rest with
      | [] => None
      | [x] => if c =? x then Some (LStart, [t]) else None
      | x :: r => if c =? x then Some (LLit r t, []) else None
      end
  end.

(** End of input: only between tokens, or after a complete number. *)
Definition finish (st : lexstate) : option (list token) :=
  match st with
  | LStart => Some []
  | LNum PhZero a | LNum PhInt a | LNum PhFrac a | LNum PhExp a =>
      Some [TNum (num_value a)]
  | _ => None
  end.

Fixpoint lex (st : lexstate) (s : jsstring) : option (list token) :=
  match s with
  | [] => finish st
  | c :: r =>
      '(st', toks) ← step st c;
      rest ← lex st' r;
      Some (toks ++ rest)
  end.

(** *** Parser: a push-down automaton over the tokens *)

Inductive frame : Type :=
| FArr (acc : list JSValue)                            (* elements, reversed *)
| FObj (acc : list (jsstring * JSValue)) (key : jsstring).  (* members, reversed *)

Inductive pstate : Type :=
| PValue (stk : list frame)       (* a value must start *)
| PFirstElem (stk : list frame)   (* after [ : a value or ] *)
| PFirstKey (stk : list frame)    (* after { : a key or } *)
| PKey (acc : list (jsstring * JSValue)) (stk : list frame)  (* after , in an object *)
| PColon (acc : list (jsstring * JSValue)) (key : jsstring) (stk : list frame)
| PAfter (v : JSValue) (stk : list frame).  (* a value is complete *)

Definition value_start (t : token) (stk : list frame) : option pstate :=
  match t with
  | TNull => Some (PAfter JNull stk)
  | TTrue => Some (PAfter (JBool true) stk)
  | TFalse => Some (PAfter (JBool false) stk)
  | TNum n => Some (PAfter (JNum n) stk)
  | TStr s => Some (PAfter (JString s) stk)
  | TLBrack => Some (PFirstElem stk)
  | TLBrace => Some (PFirstKey stk)
  | _ => None
  end.

Definition pstep (st : pstate) (t : token) : option pstate :=
  match st with
  | PValue stk => value_start t stk
  | PFirstElem stk =>
      match t with
      | TRBrack => Some (PAfter (JArray []) stk)
      | _ => value_start t (FArr [] :: stk)
      end
  | PFirstKey stk =>
      match t with
      | TRBrace => Some (PAfter (JObject []) stk)
      | TStr k => Some (PColon [] k stk)
      | _ => None
      end
  | PKey acc stk =>
      match t with
      | TStr k => Some (PColon acc k stk)
      | _ => None
      end
  | PColon acc k stk =>
      match t with
      | TColon => Some (PValue (FObj acc k :: stk))
      | _ => None
      end
  | PAfter v (FArr acc :: stk) =>
      match t with
      | TComma => Some (PValue (FArr (v :: acc) :: stk))
      | TRBrack => Some (PAfter (JArray (rev (v :: acc))) stk)
      | _ => None
      end
  | PAfter v (FObj acc k :: stk) =>
      match t with
      | TComma => Some (PKey ((k, v) :: acc) stk)
      | TRBrace => Some (PAfter (JObject (rev ((k, v) :: acc))) stk)
      | _ => None
      end
  | PAfter v [] => None
  end.

Fixpoint consume (st : pstate) (ts : list token) : option JSValue :=
  match ts with
  | [] => match st with PAfter v [] => Some v | _ => None end
  | t :: r => st' ← pstep st t; consume st' r
  end.

(** [JSON.parse(text)]: [None] stands for the SyntaxError it throws. *)
Definition parse (text : jsstring) : option JSValue :=
  ts ← lex LStart text; consume (PValue []) ts.

End JSON.

(* ====================================================================== *)
(** ** Values at run time: truthiness, property access, exceptions *)
(* ====================================================================== *)

Module JS.

Import JSString.

(** ToBoolean. *)
Definition truthy (v : JSValue) : bool :=
  match v with
  | JNull => false
  | JBool b => b
  | JNum NaN => false
  | JNum (Inf _) => true
  | JNum (Dec _ m _) => negb (m =? 0)
  | JString s => negb (bool_decide (s = []))
  | JArray _ | JObject _ => true
  end.

(** A storage item, a dialog answer or the injected global: a string, or
    [None] for null / undefined. Only a non-empty string is truthy. *)
Definition truthy_str (o : option jsstring) : bool :=
  match o with
  | Some (_ :: _) => true
  | _ => false
  end.

(** [a || b] on such values. *)
Definition or_str (a b : option jsstring) : option jsstring :=
  if truthy_str a then a else b.

(** The member of an object literal that a property read sees: with a
    repeated key, [JSON.parse] keeps the last one. *)
Fixpoint lookup_last (k : jsstring) (ms : list (jsstring * JSValue))
  : option JSValue :=
  match ms with
  | [] => None
  | (k', v) :: r =>
      match lookup_last k r with
      | Some x => Some x
      | None => if decide (k' = k) then Some v else None
      end
  end.

(** [v.k] for a value [v] that is not null, [None] standing for undefined.
    The component reads the keys choices, message, content, probability
    and explanation, none of which is a property of an array, a string, a
    number or a boolean. *)
Definition get_prop (v : JSValue) (k : jsstring) : option JSValue :=
  match v with
  | JObject ms => lookup_last k ms
  | _ => None
  end.

(** [v[0]] for a value [v] that is not null. *)
Definition get_index0 (v : JSValue) : option JSValue :=
  match v with
  | JArray (x :: _) => Some x
  | JString (c :: _) => Some (JString [c])
  | JObject ms => lookup_last (str "0") ms
  | _ => None
  end.

(** The left side of [?.]: undefined and null both stop the chain. *)
Definition non_nullish (o : option JSValue) : option JSValue :=
  match o with
  | Some JNull => None
  | _ => o
  end.

(** [x || ""] where [x] may be undefined. *)
Definition or_empty (o : option JSValue) : JSValue :=
  match o with
  | Some v => if truthy v then v else JString []
  | None => JString []
  end.

Inductive ErrName : Type := ErrorN | TypeErrorN | SyntaxErrorN.

(** An Error object: its constructor and its [message]. *)
Record Exn : Type := MkExn { name : ErrName; message : jsstring }.

Inductive result (A : Type) : Type :=
| Return (a : A)
| Raise (e : Exn).
Arguments Return {A} a.
Arguments Raise {A} e.

(** Where the engine itself raises a TypeError in this component. *)
Inductive TypeErrorSite : Type :=
| ReadOfNull (prop : jsstring)          (* null.prop *)
| NotAFunction (prop : jsstring) (v : JSValue).  (* v.prop() with v.prop not callable *)

(** What the host (engine and browser) provides and the repository does
    not define: the [Number] conversion (floating point) and the message
    texts of the errors the engine raises. *)
Class Host : Type := {
  Number_ : JSValue -> JSNum;
  syntaxErrorMessage : jsstring -> jsstring;
  typeErrorMessage : TypeErrorSite -> jsstring
}.

End JS.
Export JS.

(* ====================================================================== *)
(** ** The component state and the browser around it *)
(* ====================================================================== *)

(** The [useState] cells of [HumanizerWithDetector]. *)
Record State : Type := MkState {
  input : jsstring;
  output : jsstring;
  score : JSValue;            (* null until a probability is stored *)
  reason : JSValue;
  loading : bool;
  mode : jsstring;
  tone : jsstring;
  temperature : JSValue;      (* 0.7 at first, then the slider's string *)
  apiKeyPrompted : bool
}.

Definition initialState : State :=
  MkState [] [] JNull (JString []) false (str "humanize") (str "natural")
          (JNum (Double.to_double false 7 (-1))) false.

Record Message : Type := MkMessage { role : jsstring; content : jsstring }.

(** The object handed to [JSON.stringify] as the request body. *)
Record Payload : Type := MkPayload {
  model : jsstring;
  messages : list Message;
  p_temperature : JSNum;
  max_tokens : N
}.

Record Request : Type := MkRequest {
  url : jsstring;
  method : jsstring;
  contentType : jsstring;
  authorization : jsstring;
  body : Payload
}.

(** How a [fetch] ends: it rejects (a TypeError with the browser's message),
    or it resolves with a status and a body. *)
Inductive FetchOutcome : Type :=
| NetworkError (msg : jsstring)
| Response (status : N) (text : jsstring).

(** [res.ok] *)
Definition res_ok (status : N) : bool := (200 <=? status) && (status <=? 299).

(** What the component does to the world outside its state, in order. *)
Inductive Event : Type :=
| Alert (msg : jsstring)
| Prompt (msg : jsstring)
| ConsoleError (e : Exn)
| Fetch (req : Request)
| ClipboardWrite (text : jsstring)
| Download (filename : jsstring) (text : jsstring).

Record World : Type := MkWorld {
  st : State;
  windowKey : option jsstring;             (* window.__OPENAI_API_KEY__ *)
  localStorage : gmap jsstring jsstring;
  sessionStorage : gmap jsstring jsstring;
  log : list Event
}.

(** An [async] handler between two of its suspension points: it has ended,
    or it waits for a [fetch] and continues with the outcome in the world as
    it is by then. A state setter is modelled as a write in program order. *)
Inductive Task : Type :=
| Done (w : World)
| AwaitFetch (w : World) (req : Request) (k : FetchOutcome -> World -> Task).

Module Setters.

Definition with_state (f : State -> State) (w : World) : World :=
  MkWorld (f (st w)) (windowKey w) (localStorage w) (sessionStorage w) (log w).

Definition setInput (v : jsstring) : World -> World :=
  with_state (fun s => MkState v (output s) (score s) (reason s) (loading s)
                         (mode s) (tone s) (temperature s) (apiKeyPrompted s)).

Definition setOutput (v : jsstring) : World -> World :=
  with_state (fun s => MkState (input s) v (score s) (reason s) (loading s)
                         (mode s) (tone s) (temperature s) (apiKeyPrompted s)).

Definition setScore (v : JSValue) : World -> World :=
  with_state (fun s => MkState (input s) (output s) v (reason s) (loading s)
                         (mode s) (tone s) (temperature s) (apiKeyPrompted s)).

Definition setReason (v : JSValue) : World -> World :=
  with_state (fun s => MkState (input s) (output s) (score s) v (loading s)
                         (mode s) (tone s) (temperature s) (apiKeyPrompted s)).

Definition setLoading (v : bool) : World -> World :=
  with_state (fun s => MkState (input s) (output s) (score s) (reason s) v
                         (mode s) (tone s) (temperature s) (apiKeyPrompted s)).

Definition setTemperature (v : JSValue) : World -> World :=
  with_state (fun s => MkState (input s) (output s) (score s) (reason s)
                         (loading s) (mode s) (tone s) v (apiKeyPrompted s)).

Definition setApiKeyPrompted (v : bool) : World -> World :=
  with_state (fun s => MkState (input s) (output s) (score s) (reason s)
                         (loading s) (mode s) (tone s) (temperature s) v).

(** [sessionStorage.setItem(k, v)] *)
Definition sessionStorage_setItem (k v : jsstring) (w : World) : World :=
  MkWorld (st w) (windowKey w) (localStorage w) (<[k := v]> (sessionStorage w))
          (log w).

Definition emit (e : Event) (w : World) : World :=
  MkWorld (st w) (windowKey w) (localStorage w) (sessionStorage w)
          (log w ++ [e]).

Definition alert (msg : jsstring) : World -> World := emit (Alert msg).

End Setters.
Export Setters.

(* ====================================================================== *)
(** ** The component *)
(* ====================================================================== *)

Section Component.

Context `{host : Host}.
Import JSString.

(** *** Prompt templates *)

Definition buildHumanizePrompt (tone text : jsstring) : jsstring :=
  str "Eres un experto en edición de textos. Reescribe el siguiente texto para que suene completamente humano, natural, fluido y con variedad léxica. Corrige errores gramaticales y de estilo, mejora la coherencia, pero mantén el significado, los hechos y la intención. Usa un tono: "
  ++ tone
  ++ str ". Evita frases que suenen mecanizadas, evita repeticiones y muéstralo en formato final listo para publicar."
  ++ nl ++ nl ++ str "Texto original:" ++ nl ++ strq "'''" ++ nl
  ++ text ++ nl ++ strq "'''".

Definition buildDetectPrompt (text : jsstring) : jsstring :=
  strq "Eres un detector experto de texto generado por IA. Lee el texto y evalúa la probabilidad (0-100) de que haya sido generado por una IA. Da un número entero de 0 a 100 y una explicación breve (1-2 frases) con las señales usadas para decidir. Devuélvelo en formato JSON EXACTO: {'probability': 0-100, 'explanation': '...'}"
  ++ nl ++ nl ++ str "Texto:" ++ nl ++ strq "'''" ++ nl
  ++ text ++ nl ++ strq "'''".

(** *** The gateway call *)

Definition openai_error (status : N) (text : jsstring) : Exn :=
  MkExn ErrorN (str "OpenAI error: " ++ dec status ++ str " " ++ text).

(** What [callOpenAI] makes of the outcome of its [fetch]: the rejection
    passes through, a status outside 200..299 throws, [res.json()] parses
    the body. *)
Definition callOpenAI_result (out : FetchOutcome) : result JSValue :=
  match out with
  | NetworkError msg => Raise (MkExn TypeErrorN msg)
  | Response status text =>
      if negb (res_ok status) then Raise (openai_error status text)
      else match JSON.parse text with
           | Some data => Return data
           | None => Raise (MkExn SyntaxErrorN (syntaxErrorMessage text))
           end
  end.

Definition openai_request (payload : Payload) (apiKey : jsstring) : Request :=
  MkRequest (str "https://api.openai.com/v1/chat/completions") (str "POST")
            (str "application/json") (str "Bearer " ++ apiKey) payload.

Definition callOpenAI (payload : Payload) (apiKey : jsstring)
           (k : result JSValue -> World -> Task) (w : World) : Task :=
  let req := openai_request payload apiKey in
  AwaitFetch (emit (Fetch req) w) req (fun out w' => k (callOpenAI_result out) w').

(** *** The pieces of [handleHumanize] *)

(** [data.choices?.[0]?.message?.content?.trim() || ""] *)
Definition completionText (data : JSValue) : result jsstring :=
  match data with
  | JNull => Raise (MkExn TypeErrorN (typeErrorMessage (ReadOfNull (str "choices"))))
  | _ =>
      let content :=
        choices ← non_nullish (get_prop data (str "choices"));
        first ← non_nullish (get_index0 choices);
        msg ← non_nullish (get_prop first (str "message"));
        non_nullish (get_prop msg (str "content")) in
      match content with
      | None => Return []
      | Some (JString s) => Return (trim s)
      | Some v =>
          Raise (MkExn TypeErrorN (typeErrorMessage (NotAFunction (str "trim") v)))
      end
  end.

Definition humanizePayload (s : State) : Payload :=
  MkPayload (str "gpt-4o-mini")
            [MkMessage (str "user") (buildHumanizePrompt (tone s) (input s))]
            (Number_ (temperature s)) 1200.

Definition detectPayload (s : State) : Payload :=
  MkPayload (str "gpt-4o-mini")
            [MkMessage (str "user") (buildDetectPrompt (input s))]
            (Dec false 0 0) 200.

(** The inner [try]: [parsed] starts as null; with both braces found, the
    text from the first opening brace to the last closing one is handed
    to [JSON.parse], which may throw. *)
Definition jsonSlice (detectText : jsstring) : option jsstring :=
  let start := indexOf detectText 123 in
  let end_ := lastIndexOf detectText 125 in
  if negb (start =? -1)%Z && negb (end_ =? -1)%Z
  then Some (substring detectText start (end_ + 1))
  else None.

Definition tryParse (detectText : jsstring) : result JSValue :=
  match jsonSlice detectText with
  | Some jsonStr =>
      match JSON.parse jsonStr with
      | Some parsed => Return parsed
      | None => Raise (MkExn SyntaxErrorN (syntaxErrorMessage jsonStr))
      end
  | None => Return JNull
  end.

(** ... and its [catch], which ignores the error and leaves [parsed] null. *)
Definition parseDetection (detectText : jsstring) : JSValue :=
  match tryParse detectText with
  | Return parsed => parsed
  | Raise _ => JNull
  end.

(** The [if (parsed && typeof parsed.probability !== "undefined")]. *)
Definition showDetection (parsed : JSValue) (detectText : jsstring)
           (w : World) : World :=
  match (if truthy parsed then get_prop parsed (str "probability") else None) with
  | Some probability =>
      setReason (or_empty (get_prop parsed (str "explanation")))
                (setScore probability w)
  | None =>
      setReason (JString detectText) (setScore JNull w)
  end.

(** The [catch] and the [finally] of the outer [try]. *)
Definition on_error (err : Exn) (w : World) : World :=
  setLoading false
    (alert (str "Error: " ++ message err) (emit (ConsoleError err) w)).

Definition try_ {A : Type} (r : result A) (k : A -> World -> Task)
           (w : World) : Task :=
  match r with
  | Return a => k a w
  | Raise err => Done (on_error err w)
  end.

Definition promptText : jsstring :=
  str "Introduce tu API Key de OpenAI (se guardará en sessionStorage para esta pestaña):".

(** The credential: the injected global, else the local storage, else the
    dialog, whose answer goes to the session storage. [None] is the bare
    [return] after a declined dialog. *)
Definition resolveKey (reply : option jsstring) (w : World)
  : World * option jsstring :=
  match or_str (windowKey w) (localStorage w !! str "openai_key") with
  | Some (c :: r) => (w, Some (c :: r))
  | _ =>
      let w1 := emit (Prompt promptText) w in
      match reply with
      | Some (c :: r) =>
          (setApiKeyPrompted true
             (sessionStorage_setItem (str "openai_key") (c :: r) w1),
           Some (c :: r))
      | _ => (w1, None)
      end
  end.

(** *** [handleHumanize]

    [reply] is what the user answers if the dialog opens. The state read
    through the closure ([input], [tone], [temperature]) is the one of the
    render the click happened in, [s] below. The body is cut at its two
    [await]s: [afterRewrite] and [afterDetect] are what follows each. *)
Definition afterDetect (r2 : result JSValue) : World -> Task :=
  try_ r2 (fun detectResp =>
  try_ (completionText detectResp) (fun detectText w =>
    let parsed := parseDetection detectText in
    Done (setLoading false (showDetection parsed detectText w)))).

Definition afterRewrite (s : State) (apiKey : jsstring)
           (r1 : result JSValue) : World -> Task :=
  try_ r1 (fun data =>
  try_ (completionText data) (fun humanized w =>
    callOpenAI (detectPayload s) apiKey afterDetect (setOutput humanized w))).

Definition handleHumanize (reply : option jsstring) (w : World) : Task :=
  let s := st w in
  if bool_decide (trim (input s) = []) then
    Done (alert (str "Pega o escribe un texto primero.") w)
  else
    match resolveKey reply w with
    | (w0, None) => Done w0
    | (w0, Some apiKey) =>
        callOpenAI (humanizePayload s) apiKey (afterRewrite s apiKey)
          (setReason (JString [])
             (setScore JNull (setOutput [] (setLoading true w0))))
    end.

(** *** The other handlers *)

Definition handleCopy (w : World) : World :=
  match output (st w) with
  | [] => alert (str "No hay texto para copiar.") w
  | text => alert (str "Copiado al portapapeles.") (emit (ClipboardWrite text) w)
  end.

Definition handleSave (w : World) : World :=
  match output (st w) with
  | [] => alert (str "No hay texto para descargar.") w
  | text => emit (Download (str "humanizado.txt") text) w
  end.

(** The closure of the "Limpiar" button. *)
Definition handleClear (w : World) : World :=
  setReason (JString []) (setScore JNull (setOutput [] (setInput [] w))).

(** *** The four buttons of the rendered view *)

Inductive Button : Type := BtnHumanize | BtnCopy | BtnClear | BtnSave.

(** The [disabled] attribute each button is rendered with. *)
Definition disabled (s : State) (b : Button) : bool :=
  match b with
  | BtnHumanize => loading s
  | BtnCopy => false
  | BtnClear => false
  | BtnSave => false
  end.

Definition onClick (b : Button) (reply : option jsstring) (w : World) : Task :=
  match b with
  | BtnHumanize => handleHumanize reply w
  | BtnCopy => Done (handleCopy w)
  | BtnClear => Done (handleClear w)
  | BtnSave => Done (handleSave w)
  end.

(** A click: the browser delivers none to a disabled button. *)
Definition click (b : Button) (reply : option jsstring) (w : World) : Task :=
  if disabled (st w) b then Done w else onClick b reply w.

(** *** Running a task against the network

    [outs] are the outcomes of the successive [fetch] calls; a call that
    is never answered leaves the handler suspended. Nothing else happens
    while a call is pending: the handler resumes in the world it suspended
    in. *)
Fixpoint drive (outs : list FetchOutcome) (t : Task) : World :=
  match t with
  | Done w => w
  | AwaitFetch w _ k =>
      match outs with
      | [] => w
      | o :: os => drive os (k o w)
      end
  end.

Definition run (reply : option jsstring) (outs : list FetchOutcome)
           (w : World) : World :=
  drive outs (handleHumanize reply w).

(** *** Reading a world *)

Fixpoint fetches (l : list Event) : list Request :=
  match l with
  | [] => []
  | Fetch req :: r => req :: fetches r
  | _ :: r => fetches r
  end.

(** The requests a run has issued, in order. *)
Definition issued (before after : World) : list Request :=
  fetches (drop (length (log before)) (log after)).

(** The detector panel shows a score when [score !== null]. *)
Definition scored (s : State) : bool :=
  match score s with
  | JNull => false
  | _ => true
  end.

(** A run is in progress while [loading] holds; it has failed with [msg]
    when it is over and the last thing it did was to report [msg]. *)
Definition processing (w : World) : Prop := loading (st w) = true.

Definition failed_with (msg : jsstring) (w : World) : Prop :=
  loading (st w) = false /\ last (log w) = Some (Alert (str "Error: " ++ msg)).

(** The credential a run works with, if it gets one. *)
Definition credential (reply : option jsstring) (w : World) : option jsstring :=
  (resolveKey reply w).2.

End Component.

(* ====================================================================== *)
(** ** A host and some worlds to evaluate on *)
(* ====================================================================== *)

Module Examples.

Import JSString.

(** [Number_] is the identity on numbers and reads the decimal strings a
    range input holds; the messages are those of V8. *)
#[export] Instance exampleHost : Host := {|
  Number_ v :=
    match v with
    | JNum n => n
    | JString s =>
        match JSON.parse (trim s) with
        | Some (JNum n) => n
        | _ => NaN
        end
    | _ => NaN
    end;
  syntaxErrorMessage _ := str "Unexpected token in JSON";
  typeErrorMessage site :=
    match site with
    | ReadOfNull p =>
        str "Cannot read properties of null (reading '" ++ p ++ str "')"
    | NotAFunction p _ => str "(intermediate value)." ++ p ++ str " is not a function"
    end
|}.

(** A new tab: the initial state with [text] typed in, no injected key,
    empty storages. *)
Definition freshWorld (text : jsstring) : World :=
  setInput text (MkWorld initialState None ∅ ∅ []).

Definition demoWorld : World :=
  freshWorld (str "este texto fue escrito por una maquina").

Definition demoKey : jsstring := str "sk-demo".

(** A 200 response whose first completion is [text]; [text] goes between
    the quotes of the content as it is, so it is written JSON-escaped. *)
Definition completion (text : jsstring) : FetchOutcome :=
  Response 200 (strq "{'choices':[{'message':{'role':'assistant','content':'"
                ++ text ++ strq "'}}]}").

(** What [res.json()] gives for [completion text], [text] free of escapes. *)
Definition completionData (text : jsstring) : JSValue :=
  JObject [(str "choices",
            JArray [JObject [(str "message",
                              JObject [(str "role", JString (str "assistant"));
                                       (str "content", JString text)])]])].

(** The world of [demoWorld] while its first request is pending. *)
Definition busyWorld : World := run (Some demoKey) [] demoWorld.

(** The world after a first run that completed with a score. *)
Definition shownWorld : World :=
  run (Some demoKey)
      [completion (str "Hola");
       completion (strq "{\'probability\': 87, \'explanation\': \'Frases repetitivas.\'}")]
      demoWorld.

(** Detection responses. *)
Definition tooLarge : jsstring := strq "{'probability': 150, 'explanation': 'x'}".
Definition wrongType : jsstring := strq "{'probability': 'seventy', 'explanation': 'x'}".

Definition noisy : jsstring :=
  strq "noise {'probability': 42, 'explanation': 'ok'} trailing".

(** A detection answer whose explanation is a number too small for a
    double, and one whose probability is too large for one. *)
Definition underflowing : jsstring := strq "{'probability': 1, 'explanation': 1e-400}".
Definition overflowing : jsstring := strq "{'probability': 1e400, 'explanation': 'x'}".

End Examples.

(* ====================================================================== *)
(** ** Notions the properties are stated with *)
(* ====================================================================== *)

Module JSONInv.

Import JSON.

Definition is_object (v : JSValue) : bool :=
  match v with
  | JObject _ => true
  | _ => false
  end.

Definition not_lbrace (t : token) : Prop := t <> TLBrace.

(** The literal a lexer state is in the middle of is never a brace. *)
Definition lit_ok (st : lexstate) : Prop :=
  match st with
  | LLit _ t => not_lbrace t
  | _ => True
  end.

(** The parser opens an object frame only on an opening brace. *)
Definition frame_ok (f : frame) : Prop :=
  match f with
  | FArr _ => True
  | FObj _ _ => False
  end.

Definition pstate_ok (st : pstate) : Prop :=
  match st with
  | PValue stk | PFirstElem stk => Forall frame_ok stk
  | PAfter v stk => Forall frame_ok stk /\ is_object v = false
  | PFirstKey _ | PKey _ _ | PColon _ _ _ => False
  end.

End JSONInv.

Section Statements.

Context `{host : Host}.
Import JSString.

(** The three ways [resolveKey] can go. *)
Inductive resolved (reply : option jsstring) (w : World)
  : World -> option jsstring -> Prop :=
| resolved_stored key :
    or_str (windowKey w) (localStorage w !! str "openai_key") = Some key ->
    key <> [] ->
    resolved reply w w (Some key)
| resolved_asked key :
    truthy_str (or_str (windowKey w) (localStorage w !! str "openai_key")) = false ->
    reply = Some key -> key <> [] ->
    resolved reply w
      (setApiKeyPrompted true
         (sessionStorage_setItem (str "openai_key") key (emit (Prompt promptText) w)))
      (Some key)
| resolved_declined :
    truthy_str (or_str (windowKey w) (localStorage w !! str "openai_key")) = false ->
    truthy_str reply = false ->
    resolved reply w (emit (Prompt promptText) w) None.

(** The world a run starts its first request from. *)
Definition reset (w : World) : World :=
  setReason (JString []) (setScore JNull (setOutput [] (setLoading true w))).

(** [w'] comes from [w] by state writes, session storage writes and the
    events [evs] only. *)
Definition extends (w w' : World) (evs : list Event) : Prop :=
  windowKey w' = windowKey w
  /\ localStorage w' = localStorage w
  /\ log w' = log w ++ evs.

(** The requests of a run with the credential [k]. *)
Definition requests_of (s : State) (k : option jsstring) : list Request :=
  match k with
  | Some key => [openai_request (humanizePayload s) key;
                 openai_request (detectPayload s) key]
  | None => []
  end.


(** An integer from 0 to 100, as the prompt asks for. *)
Definition is_percentage (v : JSValue) : bool :=
  match v with
  | JNum (Dec neg m e) =>
      if m =? 0 then true
      else if neg then false
      else if (0 <=? e)%Z then m * 10 ^ Z.to_N e <=? 100
      else (m mod 10 ^ Z.to_N (- e) =? 0) && (m / 10 ^ Z.to_N (- e) <=? 100)
  | _ => false
  end.

(** As the specification words C2: on a response whose braces parse, a
    probability that is missing or is not an integer from 0 to 100 gives
    an unscored result. *)
Definition rejects_bad_probability (t : jsstring) : Prop :=
  forall js parsed w,
    jsonSlice t = Some js ->
    JSON.parse js = Some parsed ->
    match get_prop parsed (str "probability") with
    | Some p => is_percentage p = false
    | None => True
    end ->
    scored (st (showDetection (parseDetection t) t w)) = false.

(** The path the response is expected to have, read without any guard. *)
Definition contentPath (data : JSValue) : option JSValue :=
  choices ← get_prop data (str "choices");
  first ← get_index0 choices;
  msg ← get_prop first (str "message");
  get_prop msg (str "content").

(** As the specification words C6: a successful response whose body does
    not hold a string at choices[0].message.content yields the empty
    string. *)
Definition degrades_to_empty (o : FetchOutcome) : Prop :=
  forall data,
    callOpenAI_result o = Return data ->
    (forall s, contentPath data <> Some (JString s)) ->
    completionText data = Return [].

(** As the specification words C4: while a run is in progress every
    button is disabled and a click on it does nothing. *)
Definition all_actions_inert (w : World) : Prop :=
  processing w ->
  forall b reply, disabled (st w) b = true /\ click b reply w = Done w.

End Statements.

(** *** A pending run and the user *)

Section Pending.

(** The pending [fetch] of a suspended handler gets its outcome. *)
Definition answer (o : FetchOutcome) (t : Task) : Task :=
  match t with
  | Done w => Done w
  | AwaitFetch w _ k => k o w
  end.

(** Something else happens to the world while the handler is suspended:
    a click on an enabled button, a key typed into the text area. *)
Definition meanwhile (act : World -> World) (t : Task) : Task :=
  match t with
  | Done w => Done (act w)
  | AwaitFetch w req k => AwaitFetch (act w) req k
  end.

(** The texts of the [alert] dialogs in a log. *)
Fixpoint alerts (l : list Event) : list jsstring :=
  match l with
  | [] => []
  | Alert msg :: r => msg :: alerts r
  | _ :: r => alerts r
  end.

(** What each prompt says before the quoted text. *)
Definition humanizeHead (tone : jsstring) : jsstring :=
  str "Eres un experto en edición de textos. Reescribe el siguiente texto para que suene completamente humano, natural, fluido y con variedad léxica. Corrige errores gramaticales y de estilo, mejora la coherencia, pero mantén el significado, los hechos y la intención. Usa un tono: "
  ++ tone
  ++ str ". Evita frases que suenen mecanizadas, evita repeticiones y muéstralo en formato final listo para publicar."
  ++ nl ++ nl ++ str "Texto original:" ++ nl.

Definition detectHead : jsstring :=
  strq "Eres un detector experto de texto generado por IA. Lee el texto y evalúa la probabilidad (0-100) de que haya sido generado por una IA. Da un número entero de 0 a 100 y una explicación breve (1-2 frases) con las señales usadas para decidir. Devuélvelo en formato JSON EXACTO: {'probability': 0-100, 'explanation': '...'}"
  ++ nl ++ nl ++ str "Texto:" ++ nl.

(** The line of three double quotes around the text. *)
Definition fence : jsstring := strq "'''".

(** A string made of white space only. *)
Definition blank (s : jsstring) : Prop :=
  Forall (fun c => JSString.is_space c = true) s.

(** The events a run has added to the log. *)
Definition events_since (before after : World) : list Event :=
  drop (length (log before)) (log after).

(** The writes [handleHumanize] is made of: its five setters, the events,
    and the one session storage item. *)
Inductive built_from (w : World) : World -> Prop :=
| bf_here : built_from w w
| bf_emit e w' : built_from w w' -> built_from w (emit e w')
| bf_setOutput v w' : built_from w w' -> built_from w (setOutput v w')
| bf_setScore v w' : built_from w w' -> built_from w (setScore v w')
| bf_setReason v w' : built_from w w' -> built_from w (setReason v w')
| bf_setLoading v w' : built_from w w' -> built_from w (setLoading v w')
| bf_setApiKeyPrompted v w' :
    built_from w w' -> built_from w (setApiKeyPrompted v w')
| bf_session v w' :
    built_from w w' ->
    built_from w (sessionStorage_setItem (str "openai_key") v w').

End Pending.

Module JSONRoot.

Import JSON JSONInv.

(** The outermost open container is an object. *)
Definition bottom_obj (stk : list frame) : Prop :=
  match last stk with
  | Some (FObj _ _) => True
  | _ => False
  end.

(** The parser is inside a text that began with an opening brace, or has
    just completed one. *)
Definition rooted (st : pstate) : Prop :=
  match st with
  | PFirstKey stk | PKey _ stk | PColon _ _ stk => stk = [] \/ bottom_obj stk
  | PValue stk | PFirstElem stk => bottom_obj stk
  | PAfter v [] => is_object v = true
  | PAfter v stk => bottom_obj stk
  end.

End JSONRoot.

Module MoreExamples.

Import Examples.

(** A tab with a key in both places a stored key is looked for. *)
Definition keyedWorld : World :=
  MkWorld (st demoWorld) (Some (str "sk-injected"))
          (<[str "openai_key" := str "sk-local"]> ∅) ∅ [].

(** A detection answer wrapped in prose. *)
Definition wrapped : jsstring :=
  strq "Claro: {'probability': 42, 'explanation': 'ok'} Espero que sirva.".

End MoreExamples.

(* ====================================================================== *)
(** ** Properties *)
(* ====================================================================== *)

#[global] Arguments str : simpl never.
#[global] Arguments strq : simpl never.
#[global] Arguments dec : simpl never.
#[global] Arguments JSString.trim : simpl never.
#[global] Arguments JSON.parse : simpl never.
#[global] Arguments buildHumanizePrompt : simpl never.
#[global] Arguments buildDetectPrompt : simpl never.
#[global] Arguments issued : simpl never.

(** *** JSON: a text without an opening brace holds no object *)

Module JSONFacts.

Import JSON JSONInv.

Ltac lex_cases :=
  repeat match goal with
         | H : context [if ?b then _ else _] |- _ => destruct b eqn:?
         | H : Some _ = Some _ |- _ => inversion H; subst; clear H
         | H : None = Some _ |- _ => discriminate H
         end.

Lemma start_no_brace (c : N) (st : lexstate) (toks : list token) :
  c <> 123 -> start c = Some (st, toks) ->
  Forall not_lbrace toks /\ lit_ok st.
Proof.
  intros Hc H. unfold start in H.
  destruct (c =? 123) eqn:E; [apply N.eqb_eq in E; contradiction|].
  lex_cases; simpl; (split; [repeat constructor; discriminate | try exact I; discriminate]).
Qed.

Lemma end_num_no_brace (a : numacc) (c : N) (st : lexstate) (toks : list token) :
  c <> 123 -> end_num a c = Some (st, toks) ->
  Forall not_lbrace toks /\ lit_ok st.
Proof.
  intros Hc H. unfold end_num in H.
  destruct (start c) as [[st0 toks0]|] eqn:E; simpl in H; [|discriminate].
  inversion H; subst; clear H.
  destruct (start_no_brace _ _ _ Hc E) as [F L].
  split; [constructor; [discriminate | exact F] | exact L].
Qed.

Lemma step_no_brace (st : lexstate) (c : N) (st' : lexstate) (toks : list token) :
  lit_ok st -> c <> 123 -> step st c = Some (st', toks) ->
  Forall not_lbrace toks /\ lit_ok st'.
Proof.
  intros Hok Hc H. destruct st as [|acc|acc|acc k v|ph a|rest t]; simpl in H.
  - eapply start_no_brace; eassumption.
  - lex_cases; simpl; (split; [repeat constructor; discriminate | exact I]).
  - unfold esc_step in H.
    lex_cases; simpl; (split; [constructor | exact I]).
  - destruct (hex_digit c); simpl in H; [|discriminate].
    destruct k as [|[|k]]; inversion H; subst; (split; [constructor | exact I]).
  - destruct ph; simpl in H;
      repeat match goal with
             | H : context [if ?b then _ else _] |- _ => destruct b eqn:?
             end;
      try discriminate;
      try (eapply end_num_no_brace; eassumption);
      inversion H; subst; (split; [constructor | exact I]).
  - destruct rest as [|x [|y r]]; [discriminate|..];
      destruct (c =? x); try discriminate; inversion H; subst; simpl.
    + split; [repeat constructor; exact Hok | exact I].
    + split; [constructor | exact Hok].
Qed.

Lemma finish_no_brace (st : lexstate) (toks : list token) :
  finish st = Some toks -> Forall not_lbrace toks.
Proof.
  destruct st as [|acc|acc|acc k v|ph a|rest t]; simpl; try discriminate.
  - intros H; inversion H; constructor.
  - destruct ph; intros H; inversion H; repeat constructor; discriminate.
Qed.

Lemma lex_no_brace (s : jsstring) :
  forall st toks,
    lit_ok st -> Forall (fun c => c <> 123) s -> lex st s = Some toks ->
    Forall not_lbrace toks.
Proof.
  induction s as [|c r IH]; intros st toks Hok Hs H; simpl in H.
  - eapply finish_no_brace; eassumption.
  - inversion Hs as [|? ? Hc Hr]; subst.
    destruct (step st c) as [[st' toks1]|] eqn:E; simpl in H; [|discriminate].
    destruct (lex st' r) as [rest|] eqn:E2; simpl in H; [|discriminate].
    inversion H; subst; clear H.
    destruct (step_no_brace _ _ _ _ Hok Hc E) as [F L].
    apply Forall_app. split; [exact F|]. eapply IH; eassumption.
Qed.

Lemma value_start_ok (t : token) (stk : list frame) (st' : pstate) :
  Forall frame_ok stk -> not_lbrace t -> value_start t stk = Some st' ->
  pstate_ok st'.
Proof.
  intros Hs Ht H. destruct t; simpl in H; inversion H; subst; simpl;
    try (split; [exact Hs | reflexivity]); try exact Hs.
  exfalso. apply Ht. reflexivity.
Qed.

Lemma pstep_ok (st : pstate) (t : token) (st' : pstate) :
  pstate_ok st -> not_lbrace t -> pstep st t = Some st' -> pstate_ok st'.
Proof.
  intros Hok Ht H. destruct st as [stk|stk|stk|acc stk|acc k stk|v stk];
    simpl in Hok; try contradiction; simpl in H.
  - eapply value_start_ok; eassumption.
  - destruct t; try (eapply (value_start_ok _ (FArr [] :: stk));
                     [constructor; [exact I | exact Hok] | exact Ht | exact H]).
    inversion H; subst. split; [exact Hok | reflexivity].
  - destruct Hok as [Hs Hv].
    destruct stk as [|[acc|acc k] stk]; [discriminate| |].
    + inversion Hs; subst. destruct t; inversion H; subst; simpl.
      * split; [assumption | reflexivity].
      * constructor; [exact I | assumption].
    + inversion Hs as [|? ? Hf]; subst. contradiction.
Qed.

Lemma consume_no_object (ts : list token) :
  forall st v,
    pstate_ok st -> Forall not_lbrace ts -> consume st ts = Some v ->
    is_object v = false.
Proof.
  induction ts as [|t r IH]; intros st v Hok Hts H; simpl in H.
  - destruct st as [stk|stk|stk|acc stk|acc k stk|v0 stk]; try discriminate.
    destruct stk; [|discriminate]. inversion H; subst. apply Hok.
  - inversion Hts as [|? ? Ht Hr]; subst.
    destruct (pstep st t) as [st'|] eqn:E; simpl in H; [|discriminate].
    eapply IH; [eapply pstep_ok; eassumption | exact Hr | exact H].
Qed.

Theorem parse_no_brace (text : jsstring) (v : JSValue) :
  Forall (fun c => c <> 123) text ->
  parse text = Some v ->
  is_object v = false.
Proof.
  intros Hs H. unfold parse in H.
  destruct (lex LStart text) as [ts|] eqn:E; simpl in H; [|discriminate].
  apply (consume_no_object ts (PValue []) v); [simpl; constructor | | exact H].
  apply (lex_no_brace text LStart ts); [exact I | exact Hs | exact E].
Qed.

End JSONFacts.

(** *** The two index searches and the slice between them *)

Module IndexFacts.

Import JSString.

Lemma indexOf_bounds (s : jsstring) (c : N) :
  (-1 <= indexOf s c < Z.of_nat (length s))%Z.
Proof.
  induction s as [|d r IH]; simpl; [lia|].
  destruct (d =? c); [lia|].
  destruct (indexOf r c); lia.
Qed.

Lemma lastIndexOf_bounds (s : jsstring) (c : N) :
  (-1 <= lastIndexOf s c < Z.of_nat (length s))%Z.
Proof.
  induction s as [|d r IH]; simpl; [lia|].
  destruct (lastIndexOf r c); [lia | lia |].
  destruct (d =? c); lia.
Qed.

(** Nothing before the first occurrence is an occurrence. *)
Lemma indexOf_before (s : jsstring) (c : N) :
  forall j : nat, (Z.of_nat j < indexOf s c)%Z -> s !! j <> Some c.
Proof.
  induction s as [|d r IH]; intros j Hj; simpl in *; [discriminate|].
  destruct (d =? c) eqn:E; [lia|].
  apply N.eqb_neq in E.
  destruct j as [|j]; simpl.
  - intros [= ->]. contradiction.
  - apply IH. destruct (indexOf r c); lia.
Qed.

(** With the last closing brace before the first opening one, [substring]
    swaps its arguments, and what it returns lies before the first
    opening brace: it holds none. *)
Lemma swapped_slice_no_brace (t : jsstring) (e : Z) :
  (-1 <= e < indexOf t 123)%Z ->
  Forall (fun c => c <> 123) (substring t (indexOf t 123) (e + 1)).
Proof.
  intros He. pose proof (indexOf_bounds t 123) as Hb.
  unfold substring.
  rewrite (Z.max_l (indexOf t 123) 0), (Z.max_l (e + 1) 0) by lia.
  rewrite (Z.min_l (indexOf t 123)), (Z.min_l (e + 1) (Z.of_nat (length t))) by lia.
  rewrite Z.min_r, Z.max_l by lia.
  apply Forall_lookup. intros i x Hx.
  apply lookup_take_Some in Hx. destruct Hx as [Hx Hi].
  rewrite lookup_drop in Hx.
  intros ->. revert Hx. apply indexOf_before. lia.
Qed.

End IndexFacts.

Section Runs.

Context `{host : Host}.
Import JSString.

(** *** The log *)

Lemma fetches_app (l1 l2 : list Event) :
  fetches (l1 ++ l2) = fetches l1 ++ fetches l2.
Proof.
  induction l1 as [|e l1 IH]; [reflexivity|].
  destruct e; simpl; rewrite IH; reflexivity.
Qed.

Lemma issued_app (w w' : World) (evs : list Event) :
  log w' = log w ++ evs -> issued w w' = fetches evs.
Proof. intros E. unfold issued. rewrite E, drop_app_length. reflexivity. Qed.

(** *** The credential *)

Lemma resolveKey_cases (reply : option jsstring) (w : World) :
  resolved reply w (resolveKey reply w).1 (resolveKey reply w).2.
Proof.
  unfold resolveKey.
  destruct (or_str (windowKey w) (localStorage w !! str "openai_key"))
    as [[|c r]|] eqn:E; simpl.
  2: { apply resolved_stored; [exact E | discriminate]. }
  all: destruct reply as [[|c' r']|]; simpl.
  all: try (apply resolved_asked;
            [rewrite E; reflexivity | reflexivity | discriminate]).
  all: apply resolved_declined; [rewrite E; reflexivity | reflexivity].
Qed.

Lemma resolved_inv (reply : option jsstring) (w w0 : World) (o : option jsstring) :
  resolveKey reply w = (w0, o) -> resolved reply w w0 o.
Proof.
  intros E. pose proof (resolveKey_cases reply w) as H.
  rewrite E in H. exact H.
Qed.

(** Resolving the credential issues no request and leaves the result cells,
    the injected global and the local storage as they are. *)
Lemma resolved_frame (reply : option jsstring) (w w0 : World) (o : option jsstring) :
  resolved reply w w0 o ->
  (exists evs, log w0 = log w ++ evs /\ fetches evs = [])
  /\ input (st w0) = input (st w) /\ output (st w0) = output (st w)
  /\ score (st w0) = score (st w) /\ reason (st w0) = reason (st w)
  /\ loading (st w0) = loading (st w)
  /\ windowKey w0 = windowKey w /\ localStorage w0 = localStorage w.
Proof.
  intros []; simpl; repeat split; try reflexivity.
  - exists []. rewrite app_nil_r. split; reflexivity.
  - exists [Prompt promptText]. split; reflexivity.
  - exists [Prompt promptText]. split; reflexivity.
Qed.

(** *** The shape of a run *)

Lemma handleHumanize_blank (reply : option jsstring) (w : World) :
  trim (input (st w)) = [] ->
  handleHumanize reply w = Done (alert (str "Pega o escribe un texto primero.") w).
Proof.
  intros E. unfold handleHumanize. rewrite bool_decide_eq_true_2 by exact E.
  reflexivity.
Qed.

Lemma handleHumanize_started (reply : option jsstring) (w w0 : World) (key : jsstring) :
  trim (input (st w)) <> [] ->
  resolveKey reply w = (w0, Some key) ->
  handleHumanize reply w
  = callOpenAI (humanizePayload (st w)) key (afterRewrite (st w) key) (reset w0).
Proof.
  intros Hne E. unfold handleHumanize.
  rewrite bool_decide_eq_false_2 by exact Hne. rewrite E. reflexivity.
Qed.

Lemma credential_resolveKey (reply : option jsstring) (w : World) (key : jsstring) :
  credential reply w = Some key ->
  resolveKey reply w = ((resolveKey reply w).1, Some key).
Proof.
  unfold credential. destruct (resolveKey reply w) as [w0 o]. simpl.
  intros ->. reflexivity.
Qed.

Lemma drive_done (outs : list FetchOutcome) (w : World) :
  drive outs (Done w) = w.
Proof. destruct outs; reflexivity. Qed.

(** A run that starts: the first request goes out of the reset world, and
    the rest of the run is [afterRewrite] on the first outcome. *)
Lemma run_started (reply : option jsstring) (w : World) (key : jsstring)
      (o1 : FetchOutcome) (rest : list FetchOutcome) :
  trim (input (st w)) <> [] ->
  credential reply w = Some key ->
  run reply (o1 :: rest) w
  = drive rest
      (afterRewrite (st w) key (callOpenAI_result o1)
         (emit (Fetch (openai_request (humanizePayload (st w)) key))
               (reset (resolveKey reply w).1))).
Proof.
  intros Hne Hk. unfold run.
  rewrite (handleHumanize_started _ _ _ _ Hne (credential_resolveKey _ _ _ Hk)).
  reflexivity.
Qed.

(** The three ways a started run ends when its calls are answered. *)
Lemma run_first_fails (reply : option jsstring) (w : World) (key : jsstring)
      (o1 : FetchOutcome) (rest : list FetchOutcome) (err : Exn) :
  trim (input (st w)) <> [] ->
  credential reply w = Some key ->
  callOpenAI_result o1 = Raise err ->
  run reply (o1 :: rest) w
  = on_error err
      (emit (Fetch (openai_request (humanizePayload (st w)) key))
            (reset (resolveKey reply w).1)).
Proof.
  intros Hne Hk H1.
  rewrite (run_started _ _ _ _ _ Hne Hk), H1. simpl. apply drive_done.
Qed.



(** *** What every run leaves alone *)

Lemma extends_refl (w : World) : extends w w [].
Proof. repeat split. symmetry. apply app_nil_r. Qed.

Lemma extends_resolved (reply : option jsstring) (w w0 : World)
      (o : option jsstring) :
  resolved reply w w0 o ->
  exists evs, extends w w0 evs /\ fetches evs = [].
Proof.
  intros [].
  - exists []. split; [apply extends_refl | reflexivity].
  - exists [Prompt promptText]. repeat split.
  - exists [Prompt promptText]. repeat split.
Qed.

Lemma extends_showDetection (parsed : JSValue) (t : jsstring) (w : World) :
  extends w (setLoading false (showDetection parsed t w)) []
  /\ sessionStorage (setLoading false (showDetection parsed t w))
     = sessionStorage w.
Proof.
  unfold showDetection.
  destruct (if truthy parsed then get_prop parsed (str "probability") else None);
    simpl; repeat split; symmetry; apply app_nil_r.
Qed.

(** Every run leaves the injected global and the local storage as they
    were, only appends to the log, writes the session storage in
    [resolveKey] at most, and issues a prefix of its two requests. *)
Lemma run_extends (reply : option jsstring) (outs : list FetchOutcome) (w : World) :
  exists evs,
    extends w (run reply outs w) evs
    /\ fetches evs `prefix_of` requests_of (st w) (credential reply w)
    /\ (trim (input (st w)) <> [] ->
        sessionStorage (run reply outs w) = sessionStorage (resolveKey reply w).1).
Proof.
  unfold run, handleHumanize, credential.
  destruct (bool_decide (trim (input (st w)) = [])) eqn:Hb.
  { rewrite drive_done. apply bool_decide_eq_true_1 in Hb.
    exists [Alert (str "Pega o escribe un texto primero.")].
    repeat split; [apply prefix_nil | congruence]. }
  pose proof (resolveKey_cases reply w) as R.
  destruct (resolveKey reply w) as [w0 [key|]] eqn:E; simpl fst in *; simpl snd in *.
  2: { rewrite drive_done.
       destruct (extends_resolved _ _ _ _ R) as (evs & X & F).
       exists evs. rewrite F. repeat split; try apply X. apply prefix_nil. }
  destruct (extends_resolved _ _ _ _ R) as (evs & (XA & XB & XC) & F).
  set (req1 := openai_request (humanizePayload (st w)) key).
  set (req2 := openai_request (detectPayload (st w)) key).
  assert (P1 : forall l, fetches (evs ++ Fetch req1 :: l) = req1 :: fetches l).
  { intros l. rewrite fetches_app, F. reflexivity. }
  (* a world built on [w0] by setters and the events [l] *)
  assert (close : forall w' l,
             windowKey w' = windowKey w0 -> localStorage w' = localStorage w0 ->
             sessionStorage w' = sessionStorage w0 ->
             log w' = log w0 ++ Fetch req1 :: l ->
             fetches l `prefix_of` [req2] ->
             exists evs',
               extends w w' evs'
               /\ fetches evs' `prefix_of` [req1; req2]
               /\ (trim (input (st w)) <> [] -> sessionStorage w' = sessionStorage w0)).
  { intros w' l HA HB HS HL HP. exists (evs ++ Fetch req1 :: l).
    rewrite P1. split; [|split].
    - repeat split; [congruence | congruence |].
      rewrite HL, XC. symmetry. apply app_assoc.
    - apply prefix_cons. exact HP.
    - intros _. exact HS. }
  unfold callOpenAI. fold req1.
  destruct outs as [|o1 rest]; simpl drive.
  { apply (close _ []); [reflexivity .. | apply prefix_nil]. }
  unfold afterRewrite, try_.
  destruct (callOpenAI_result o1) as [data|err];
    [destruct (completionText data) as [h|err]|].
  2,3: rewrite drive_done;
       apply (close _ [ConsoleError err; Alert (str "Error: " ++ message err)]);
       [reflexivity | reflexivity | reflexivity
       | simpl; rewrite <- ?app_assoc; reflexivity | apply prefix_nil].
  unfold callOpenAI. fold req2.
  destruct rest as [|o2 rest]; simpl drive.
  { apply (close _ [Fetch req2]);
      [reflexivity | reflexivity | reflexivity
      | simpl; rewrite <- ?app_assoc; reflexivity | reflexivity]. }
  unfold afterDetect, try_.
  destruct (callOpenAI_result o2) as [detectResp|err];
    [destruct (completionText detectResp) as [detectText|err]|].
  2,3: rewrite drive_done;
       apply (close _ [Fetch req2; ConsoleError err; Alert (str "Error: " ++ message err)]);
       [reflexivity | reflexivity | reflexivity
       | simpl; rewrite <- ?app_assoc; reflexivity | reflexivity].
  rewrite drive_done.
  match goal with
  | |- context [showDetection ?p ?t ?w1] =>
      destruct (extends_showDetection p t w1) as [(SA & SB & SC) SD]
  end.
  apply (close _ [Fetch req2]);
    [rewrite SA | rewrite SB | rewrite SD | rewrite SC, app_nil_r |];
    [reflexivity | reflexivity | reflexivity
    | simpl; rewrite <- ?app_assoc; reflexivity | reflexivity].
Qed.

End Runs.

Section Claims.

Context `{host : Host}.
Import JSString.

(** *** Validation *)

(** C8. When the input is empty or only white space, starting a run ends
    at once (no suspension), changes neither the component state nor any
    storage, and does exactly one thing: it shows the local notice. *)
Theorem blank_input_is_rejected (reply : option jsstring)
        (outs : list FetchOutcome) (w : World) :
  trim (input (st w)) = [] ->
  let w' := run reply outs w in
  handleHumanize reply w = Done w'
  /\ st w' = st w
  /\ windowKey w' = windowKey w
  /\ localStorage w' = localStorage w
  /\ sessionStorage w' = sessionStorage w
  /\ log w' = log w ++ [Alert (str "Pega o escribe un texto primero.")].
Proof.
  intros E w'. subst w'. unfold run.
  rewrite (handleHumanize_blank reply w E), drive_done.
  repeat split.
Qed.

(** *** The start of a run *)

(** C10. When a run starts (input not blank, credential obtained), the
    first gateway call is entered from a world in which this run has issued
    no request yet and in which the output is empty, the score is null and
    the explanation is empty, whatever they were before. *)
Theorem start_resets_results (reply : option jsstring) (w : World) (key : jsstring) :
  trim (input (st w)) <> [] ->
  credential reply w = Some key ->
  exists w0,
    handleHumanize reply w
    = callOpenAI (humanizePayload (st w)) key (afterRewrite (st w) key) w0
    /\ issued w w0 = []
    /\ output (st w0) = []
    /\ score (st w0) = JNull
    /\ reason (st w0) = JString []
    /\ loading (st w0) = true.
Proof.
  intros Hne Hk.
  pose proof (credential_resolveKey _ _ _ Hk) as E.
  destruct (resolved_frame _ _ _ _ (resolved_inv _ _ _ _ E))
    as [[evs [Hlog Hf]] _].
  exists (reset (resolveKey reply w).1).
  split; [exact (handleHumanize_started _ _ _ _ Hne E)|].
  split; [|repeat split].
  erewrite issued_app; [exact Hf | exact Hlog].
Qed.

(** *** Failures of the gateway *)

(** A rejected [fetch] and a status outside 200..299 both make
    [callOpenAI] throw. *)
Lemma network_failure_raises (msg : jsstring) :
  callOpenAI_result (NetworkError msg) = Raise (MkExn TypeErrorN msg).
Proof. reflexivity. Qed.

Lemma bad_status_raises (status : N) (text : jsstring) :
  res_ok status = false ->
  callOpenAI_result (Response status text) = Raise (openai_error status text).
Proof. intros E. unfold callOpenAI_result. rewrite E. reflexivity. Qed.

(** C7. When the first call throws (the [fetch] is rejected, or the status
    is not a success), the run is over with that error's message reported
    and [loading] off, and the first request is the only one the run has
    issued, however many answers were available. *)
Theorem first_call_failure (reply : option jsstring) (w : World) (key : jsstring)
        (o1 : FetchOutcome) (rest : list FetchOutcome) (err : Exn) :
  trim (input (st w)) <> [] ->
  credential reply w = Some key ->
  callOpenAI_result o1 = Raise err ->
  let w' := run reply (o1 :: rest) w in
  failed_with (message err) w'
  /\ issued w w' = [openai_request (humanizePayload (st w)) key]
  /\ output (st w') = [] /\ score (st w') = JNull.
Proof.
  intros Hne Hk H1 w'. subst w'.
  pose proof (credential_resolveKey _ _ _ Hk) as E.
  destruct (resolved_frame _ _ _ _ (resolved_inv _ _ _ _ E))
    as [[evs [Hlog Hf]] _].
  rewrite (run_first_fails _ _ _ _ _ _ Hne Hk H1).
  split; [|split; [|split; reflexivity]].
  - split; [reflexivity|]. simpl. apply last_snoc.
  - erewrite issued_app.
    2: { simpl. rewrite Hlog, <- !app_assoc. reflexivity. }
    rewrite fetches_app, Hf. reflexivity.
Qed.


(** *** The tolerant extractor *)

Lemma get_prop_truthy (v p : JSValue) (k : jsstring) :
  get_prop v k = Some p -> truthy v = true.
Proof. destruct v; simpl; try discriminate. reflexivity. Qed.

Lemma get_prop_not_object (v : JSValue) (k : jsstring) :
  JSONInv.is_object v = false -> get_prop v k = None.
Proof. destruct v; simpl; try reflexivity. discriminate. Qed.

(** What [showDetection] does with a value that shows no probability. *)
Lemma showDetection_fallback (parsed : JSValue) (t : jsstring) (w : World) :
  get_prop parsed (str "probability") = None ->
  showDetection parsed t w = setReason (JString t) (setScore JNull w).
Proof.
  intros E. unfold showDetection. rewrite E.
  destruct (truthy parsed); reflexivity.
Qed.

Lemma jsonSlice_found (t js : jsstring) :
  jsonSlice t = Some js ->
  indexOf t 123 <> (-1)%Z /\ lastIndexOf t 125 <> (-1)%Z
  /\ js = substring t (indexOf t 123) (lastIndexOf t 125 + 1).
Proof.
  unfold jsonSlice.
  destruct (indexOf t 123 =? -1)%Z eqn:E1; [discriminate|].
  destruct (lastIndexOf t 125 =? -1)%Z eqn:E2; [discriminate|].
  simpl. intros [= <-].
  apply Z.eqb_neq in E1, E2. repeat split; assumption.
Qed.

Lemma jsonSlice_missing (t : jsstring) :
  indexOf t 123 = (-1)%Z \/ lastIndexOf t 125 = (-1)%Z ->
  jsonSlice t = None.
Proof.
  unfold jsonSlice. intros [-> | ->]; simpl; [reflexivity|].
  destruct (indexOf t 123 =? -1)%Z; reflexivity.
Qed.

(** C5. The extractor is a total function of the response text:
    [JSON.parse] may throw inside [tryParse], the [catch] of
    [parseDetection] absorbs it. When an opening or a closing brace is
    missing, when the first opening brace comes after the last closing
    one, and when the text between the braces is not JSON, the result is
    unscored (score null) and the explanation is the response text as
    it came. *)
Theorem extractor_falls_back (t : jsstring) (w : World) :
  indexOf t 123 = (-1)%Z
  \/ lastIndexOf t 125 = (-1)%Z
  \/ (lastIndexOf t 125 < indexOf t 123)%Z
  \/ (exists js, jsonSlice t = Some js /\ JSON.parse js = None) ->
  showDetection (parseDetection t) t w = setReason (JString t) (setScore JNull w)
  /\ scored (st (showDetection (parseDetection t) t w)) = false.
Proof.
  intros H.
  assert (G : showDetection (parseDetection t) t w
              = setReason (JString t) (setScore JNull w)).
  { apply showDetection_fallback. unfold parseDetection, tryParse.
    destruct H as [H | [H | [H | (js & Hs & Hp)]]].
    - rewrite jsonSlice_missing by (left; exact H). reflexivity.
    - rewrite jsonSlice_missing by (right; exact H). reflexivity.
    - destruct (jsonSlice t) as [js|] eqn:Es; [|reflexivity].
      destruct (jsonSlice_found _ _ Es) as (_ & He & ->).
      pose proof (IndexFacts.lastIndexOf_bounds t 125) as Hb.
      destruct (JSON.parse _) as [parsed|] eqn:Ep; [|reflexivity].
      apply get_prop_not_object.
      eapply JSONFacts.parse_no_brace; [|exact Ep].
      apply IndexFacts.swapped_slice_no_brace. lia.
    - rewrite Hs, Hp. reflexivity. }
  rewrite G. split; reflexivity.
Qed.

(** C2, as the code has it. On a response whose braces parse: without a
    probability member the result is unscored and the explanation is the
    response text; with one, its value becomes the score as it is, of
    whatever type and size, and the explanation is the explanation member,
    or the empty string when that is missing or falsy. *)
Theorem probability_is_stored_unchecked (t js : jsstring) (parsed : JSValue)
        (w : World) :
  jsonSlice t = Some js ->
  JSON.parse js = Some parsed ->
  let w' := showDetection (parseDetection t) t w in
  match get_prop parsed (str "probability") with
  | Some p =>
      score (st w') = p
      /\ reason (st w') = or_empty (get_prop parsed (str "explanation"))
  | None =>
      score (st w') = JNull /\ reason (st w') = JString t
  end.
Proof.
  intros Hs Hp w'. subst w'.
  unfold parseDetection, tryParse. rewrite Hs, Hp.
  destruct (get_prop parsed (str "probability")) as [p|] eqn:E.
  - unfold showDetection. rewrite (get_prop_truthy _ _ _ E), E.
    split; reflexivity.
  - rewrite (showDetection_fallback _ _ _ E). split; reflexivity.
Qed.

(** *** The text of a completion *)

Lemma guarded_chain (data : JSValue) :
  (choices ← non_nullish (get_prop data (str "choices"));
   first ← non_nullish (get_index0 choices);
   msg ← non_nullish (get_prop first (str "message"));
   non_nullish (get_prop msg (str "content")))
  = non_nullish (contentPath data).
Proof.
  unfold contentPath.
  destruct (get_prop data (str "choices")) as [choices|]; [|reflexivity].
  destruct choices as [|b|n|s|items|ms]; try reflexivity; simpl.
  - destruct s as [|c r]; reflexivity.
  - destruct items as [|first r]; [reflexivity|]. simpl.
    destruct first; try reflexivity. simpl.
    destruct (lookup_last (str "message") members) as [msg|]; [|reflexivity].
    destruct msg; reflexivity.
  - destruct (lookup_last (str "0") ms) as [first|]; [|reflexivity]. simpl.
    destruct first; try reflexivity. simpl.
    destruct (lookup_last (str "message") members) as [msg|]; [|reflexivity].
    destruct msg; reflexivity.
Qed.

(** C6, as the code has it. For a response that is not null itself: when
    a step of choices[0].message.content is missing or null, the text is
    the empty string; when the content is a string, the text is that
    string trimmed; in both cases nothing is raised. A content of any
    other type raises a TypeError. *)
Theorem completionText_defensive (data : JSValue) :
  data <> JNull ->
  match contentPath data with
  | None | Some JNull => completionText data = Return []
  | Some (JString s) => completionText data = Return (trim s)
  | Some _ => exists e, completionText data = Raise e /\ name e = TypeErrorN
  end.
Proof.
  intros Hd.
  assert (E : completionText data
              = match non_nullish (contentPath data) with
                | None => Return []
                | Some (JString s) => Return (trim s)
                | Some v => Raise (MkExn TypeErrorN
                                     (typeErrorMessage (NotAFunction (str "trim") v)))
                end).
  { rewrite <- guarded_chain. destruct data; try reflexivity. contradiction. }
  rewrite E.
  destruct (contentPath data) as [[|b|n|s|items|ms]|]; simpl;
    try reflexivity; eexists; split; reflexivity.
Qed.

(** A response that is null itself is not guarded: reading [choices] of
    it raises. *)
Lemma null_response_raises :
  exists e, completionText JNull = Raise e /\ name e = TypeErrorN.
Proof. eexists; split; reflexivity. Qed.

(** *** The buttons while a run is in progress *)

(** C4, as the code has it. While a run is in progress the start button is
    disabled and a click on it does nothing; the copy, clear and download
    buttons are never disabled, and a click runs their handler as in any
    other state. *)
Theorem only_start_is_disabled (w : World) (reply : option jsstring) :
  processing w ->
  (disabled (st w) BtnHumanize = true /\ click BtnHumanize reply w = Done w)
  /\ (forall b, b <> BtnHumanize ->
                disabled (st w) b = false /\ click b reply w = onClick b reply w).
Proof.
  unfold processing. intros Hl. split.
  - unfold click. simpl. rewrite Hl. split; reflexivity.
  - intros b Hb. destruct b; try contradiction; split; reflexivity.
Qed.

(** *** The detection request *)

(** The second request of a run, if it is issued, is the detection
    request for the input of the run. *)
Lemma second_request (reply : option jsstring) (outs : list FetchOutcome)
      (w : World) (r : Request) :
  issued w (run reply outs w) !! 1%nat = Some r ->
  body r = detectPayload (st w).
Proof.
  destruct (run_extends reply outs w) as (evs & (_ & _ & Hlog) & Hpre & _).
  rewrite (issued_app _ _ _ Hlog). intros Hr.
  pose proof (prefix_lookup_Some _ _ _ _ Hr Hpre) as H.
  destruct (credential reply w); simpl in H; [|discriminate].
  inversion H. reflexivity.
Qed.

(** C9. Take any world and set its temperature to any two values. In the
    two runs, whatever the dialog answers and the outcomes of the calls,
    the detection requests (the second request of each run, when issued)
    carry the same payload, with temperature 0 and max_tokens 200. *)
Theorem detection_payload_ignores_temperature
        (w : World) (t1 t2 : JSValue) (reply1 reply2 : option jsstring)
        (outs1 outs2 : list FetchOutcome) (r1 r2 : Request) :
  issued (setTemperature t1 w) (run reply1 outs1 (setTemperature t1 w)) !! 1%nat
    = Some r1 ->
  issued (setTemperature t2 w) (run reply2 outs2 (setTemperature t2 w)) !! 1%nat
    = Some r2 ->
  body r1 = body r2
  /\ p_temperature (body r1) = Dec false 0 0
  /\ max_tokens (body r1) = 200.
Proof.
  intros H1 H2.
  rewrite (second_request _ _ _ _ H1), (second_request _ _ _ _ H2).
  repeat split.
Qed.

(** *** The credential across runs *)

(** The key a run asked for is in the session storage afterwards, yet the
    next run opens the dialog again: [resolveKey] reads the injected
    global and the local storage only. *)
Lemma session_key_is_not_read (reply reply' : option jsstring)
      (outs : list FetchOutcome) (w : World) (key : jsstring) :
  trim (input (st w)) <> [] ->
  truthy_str (or_str (windowKey w) (localStorage w !! str "openai_key")) = false ->
  reply = Some key -> key <> [] ->
  let w1 := run reply outs w in
  sessionStorage w1 !! str "openai_key" = Some key
  /\ log (resolveKey reply' w1).1 = log w1 ++ [Prompt promptText].
Proof.
  intros Hne Hno -> Hk w1. subst w1.
  destruct (run_extends (Some key) outs w) as (evs & (HA & HB & _) & _ & HS).
  split.
  - rewrite (HS Hne). unfold resolveKey.
    destruct (or_str _ _) as [[|c r]|]; try discriminate;
      destruct key; try contradiction; simpl; apply lookup_insert_eq.
  - unfold resolveKey. rewrite HA, HB.
    destruct (or_str _ _) as [[|c r]|]; try discriminate;
      destruct reply' as [[|c' r']|]; reflexivity.
Qed.

End Claims.

(* ====================================================================== *)
(** ** The properties at concrete inputs *)
(* ====================================================================== *)

Section Instances.

Import JSString Examples.

Ltac differs := let X := fresh in intros X; vm_compute in X; discriminate X.

(** **** C8 on a white-space input *)
Lemma blank_input_is_rejected_witness :
  trim (input (st (freshWorld (str "   ")))) = []
  /\ let w := freshWorld (str "   ") in
     let w' := run (Some demoKey) [completion (str "Hola")] w in
     handleHumanize (Some demoKey) w = Done w'
     /\ st w' = st w
     /\ windowKey w' = windowKey w
     /\ localStorage w' = localStorage w
     /\ sessionStorage w' = sessionStorage w
     /\ log w' = log w ++ [Alert (str "Pega o escribe un texto primero.")].
Proof.
  split; [vm_compute; reflexivity|].
  apply (blank_input_is_rejected (Some demoKey) [completion (str "Hola")]
                                 (freshWorld (str "   "))).
  vm_compute. reflexivity.
Defined.

(** **** C10 from a world that shows an earlier result *)
Lemma start_resets_results_witness :
  trim (input (st shownWorld)) <> []
  /\ credential (Some demoKey) shownWorld = Some demoKey
  /\ output (st shownWorld) = str "Hola"
  /\ score (st shownWorld) = JNum (Dec false 87 0)
  /\ exists w0,
       handleHumanize (Some demoKey) shownWorld
       = callOpenAI (humanizePayload (st shownWorld)) demoKey
                    (afterRewrite (st shownWorld) demoKey) w0
       /\ issued shownWorld w0 = []
       /\ output (st w0) = []
       /\ score (st w0) = JNull
       /\ reason (st w0) = JString []
       /\ loading (st w0) = true.
Proof.
  split; [differs|]. split; [vm_compute; reflexivity|].
  split; [vm_compute; reflexivity|]. split; [vm_compute; reflexivity|].
  apply (start_resets_results (Some demoKey) shownWorld demoKey).
  - differs.
  - vm_compute. reflexivity.
Defined.

(** **** C7 on a 401 *)
Lemma first_call_failure_witness :
  trim (input (st demoWorld)) <> []
  /\ credential (Some demoKey) demoWorld = Some demoKey
  /\ callOpenAI_result (Response 401 (str "denied"))
     = Raise (openai_error 401 (str "denied"))
  /\ let w' := run (Some demoKey)
                   [Response 401 (str "denied"); completion (str "Hola")]
                   demoWorld in
     failed_with (str "OpenAI error: 401 denied") w'
     /\ issued demoWorld w'
        = [openai_request (humanizePayload (st demoWorld)) demoKey]
     /\ output (st w') = [] /\ score (st w') = JNull.
Proof.
  split; [differs|]. split; [vm_compute; reflexivity|].
  split; [vm_compute; reflexivity|].
  apply (first_call_failure (Some demoKey) demoWorld demoKey
           (Response 401 (str "denied")) [completion (str "Hola")]
           (openai_error 401 (str "denied"))).
  - differs.
  - vm_compute. reflexivity.
  - vm_compute. reflexivity.
Defined.



(** **** C2: a probability of 150, and one that is a string, are scored *)
Lemma bad_probability_is_scored :
  ~ rejects_bad_probability tooLarge
  /\ ~ rejects_bad_probability wrongType
  /\ score (st (run (Some demoKey)
                    [completion (str "Hola");
                     completion (strq "{\'probability\': 150, \'explanation\': \'x\'}")]
                    demoWorld))
     = JNum (Double.to_double false 150 0).
Proof.
  split; [|split].
  - intros H.
    assert (E : scored (st (showDetection (parseDetection tooLarge) tooLarge demoWorld))
                = false).
    { apply (H tooLarge
               (JObject [(str "probability", JNum (Double.to_double false 150 0));
                         (str "explanation", JString (str "x"))]));
        vm_compute; reflexivity. }
    vm_compute in E. discriminate E.
  - intros H.
    assert (E : scored (st (showDetection (parseDetection wrongType) wrongType demoWorld))
                = false).
    { apply (H wrongType
               (JObject [(str "probability", JString (str "seventy"));
                         (str "explanation", JString (str "x"))]));
        vm_compute; reflexivity. }
    vm_compute in E. discriminate E.
  - vm_compute. reflexivity.
Qed.

(** Numbers are doubles: an explanation that underflows to 0 is falsy and
    gives the empty string, a probability that overflows is Infinity. *)
Lemma numbers_are_doubles :
  JSON.parse (strq "[1e-400, -1e-400, 1e400, 9007199254740993, 0.5, 150, 1.0]")
  = Some (JArray [JNum (Dec false 0 0); JNum (Dec true 0 0); JNum (Inf false);
                  JNum (Dec false 9007199254740992 0); JNum (Dec false 5 (-1));
                  JNum (Dec false 15 1); JNum (Dec false 1 0)])
  /\ reason (st (showDetection (parseDetection underflowing) underflowing demoWorld))
     = JString []
  /\ score (st (showDetection (parseDetection overflowing) overflowing demoWorld))
     = JNum (Inf false).
Proof. repeat split; vm_compute; reflexivity. Qed.

(** Rounding at the edges: 0.1 is the double next to it, a tie goes to the
    even mantissa, half the smallest subnormal is where 0 begins, and the
    largest double is the last literal before Infinity. *)
Lemma double_rounding_examples :
  Double.to_double false 1 (-1)
  = Dec false 1000000000000000055511151231257827021181583404541015625 (-55)
  /\ Double.to_double false 9007199254740993 0 = Dec false 9007199254740992 0
  /\ Double.to_double false 9007199254740995 0 = Dec false 9007199254740996 0
  /\ truthy (JNum (Double.to_double false 25 (-325))) = true
  /\ truthy (JNum (Double.to_double false 24 (-325))) = false
  /\ Double.to_double false 17976931348623158 292
     = Double.to_double false 17976931348623157 292
  /\ Double.to_double false 17976931348623159 292 = Inf false
  /\ Double.to_double true 0 0 = Dec true 0 0.
Proof. repeat split; vm_compute; reflexivity. Qed.

Lemma probability_is_stored_unchecked_witness :
  jsonSlice noisy = Some (strq "{'probability': 42, 'explanation': 'ok'}")
  /\ JSON.parse (strq "{'probability': 42, 'explanation': 'ok'}")
     = Some (JObject [(str "probability", JNum (Dec false 42 0));
                      (str "explanation", JString (str "ok"))])
  /\ let w' := showDetection (parseDetection noisy) noisy demoWorld in
     score (st w') = JNum (Dec false 42 0)
     /\ reason (st w') = JString (str "ok").
Proof.
  do 2 (split; [vm_compute; reflexivity|]).
  apply (probability_is_stored_unchecked noisy
           (strq "{'probability': 42, 'explanation': 'ok'}")
           (JObject [(str "probability", JNum (Dec false 42 0));
                     (str "explanation", JString (str "ok"))])
           demoWorld).
  - vm_compute. reflexivity.
  - vm_compute. reflexivity.
Defined.

(** **** C5 on a text whose closing brace comes first *)
Lemma extractor_falls_back_witness :
  (lastIndexOf (str "}5{") 125 < indexOf (str "}5{") 123)%Z
  /\ showDetection (parseDetection (str "}5{")) (str "}5{") demoWorld
     = setReason (JString (str "}5{")) (setScore JNull demoWorld)
  /\ scored (st (showDetection (parseDetection (str "}5{")) (str "}5{") demoWorld))
     = false.
Proof.
  split; [vm_compute; reflexivity|].
  apply (extractor_falls_back (str "}5{") demoWorld).
  right. right. left. vm_compute. reflexivity.
Defined.

(** **** C6: a content that is a number *)
Lemma wrong_type_content_raises :
  ~ degrades_to_empty (Response 200 (strq "{'choices':[{'message':{'content':5}}]}")).
Proof.
  intros H.
  specialize (H (JObject [(str "choices",
                   JArray [JObject [(str "message",
                     JObject [(str "content", JNum (Dec false 5 0))])]])])).
  assert (E : completionText
                (JObject [(str "choices",
                   JArray [JObject [(str "message",
                     JObject [(str "content", JNum (Dec false 5 0))])]])])
              = Return []).
  { apply H; [vm_compute; reflexivity | intros s; differs]. }
  vm_compute in E. discriminate E.
Qed.

Lemma completionText_defensive_witness :
  JObject [(str "choices", JArray [])] <> JNull
  /\ completionText (JObject [(str "choices", JArray [])]) = Return [].
Proof.
  split; [discriminate|].
  apply (completionText_defensive (JObject [(str "choices", JArray [])])).
  discriminate.
Defined.

(** **** C4: a click on "Limpiar" while the first request is pending *)
Lemma clear_works_while_processing : ~ all_actions_inert busyWorld.
Proof.
  intros H.
  assert (P : processing busyWorld) by (vm_compute; reflexivity).
  destruct (H P BtnClear None) as [_ C].
  assert (E : input (st (drive [] (click BtnClear None busyWorld)))
              = input (st busyWorld)) by (rewrite C; reflexivity).
  vm_compute in E. discriminate E.
Qed.

Lemma only_start_is_disabled_witness :
  processing busyWorld
  /\ (disabled (st busyWorld) BtnHumanize = true
      /\ click BtnHumanize None busyWorld = Done busyWorld)
  /\ (forall b, b <> BtnHumanize ->
                disabled (st busyWorld) b = false
                /\ click b None busyWorld = onClick b None busyWorld).
Proof.
  split; [vm_compute; reflexivity|].
  apply (only_start_is_disabled busyWorld None).
  vm_compute. reflexivity.
Defined.

(** **** C9 with the slider at 0.2 and at 0.9 *)
Lemma detection_payload_ignores_temperature_witness :
  let wa := setTemperature (JString (str "0.2")) demoWorld in
  let wb := setTemperature (JNum (Double.to_double false 9 (-1))) demoWorld in
  let ra := openai_request (detectPayload (st wa)) demoKey in
  let rb := openai_request (detectPayload (st wb)) demoKey in
  issued wa (run (Some demoKey) [completion (str "Hola")] wa) !! 1%nat = Some ra
  /\ issued wb (run (Some demoKey) [completion (str "Hola")] wb) !! 1%nat = Some rb
  /\ p_temperature (humanizePayload (st wa)) <> p_temperature (humanizePayload (st wb))
  /\ body ra = body rb
  /\ p_temperature (body ra) = Dec false 0 0
  /\ max_tokens (body ra) = 200.
Proof.
  intros wa wb ra rb.
  split; [vm_compute; reflexivity|]. split; [vm_compute; reflexivity|].
  split; [differs|].
  apply (detection_payload_ignores_temperature demoWorld
           (JString (str "0.2")) (JNum (Double.to_double false 9 (-1)))
           (Some demoKey) (Some demoKey)
           [completion (str "Hola")] [completion (str "Hola")] ra rb).
  - vm_compute. reflexivity.
  - vm_compute. reflexivity.
Defined.

(** **** The end-to-end scenario of the specification *)
Lemma end_to_end_scenario :
  let w' := run (Some demoKey)
                [completion (str "Este texto parece haber sido redactado de forma natural.");
                 completion (strq "{\'probability\': 87, \'explanation\': \'Frases repetitivas.\'}")]
                demoWorld in
  output (st w') = str "Este texto parece haber sido redactado de forma natural."
  /\ score (st w') = JNum (Dec false 87 0)
  /\ reason (st w') = JString (str "Frases repetitivas.")
  /\ loading (st w') = false
  /\ length (issued demoWorld w') = 2%nat.
Proof. repeat split; vm_compute; reflexivity. Qed.

(** **** C3: the second run of a session asks for the key again

    The first run gets the key from the dialog and completes; the key is
    in the session storage. The second run, with nothing else changed,
    opens the dialog again; with the dialog declined it issues no request
    and ends there. *)
Theorem second_run_prompts_again :
  sessionStorage shownWorld !! str "openai_key" = Some demoKey
  /\ output (st shownWorld) = str "Hola"
  /\ credential None shownWorld = None
  /\ handleHumanize None shownWorld = Done (emit (Prompt promptText) shownWorld)
  /\ issued shownWorld (run None [completion (str "Hola")] shownWorld) = [].
Proof.
  repeat split; vm_compute; reflexivity.
Qed.

End Instances.

(* ====================================================================== *)
(** ** More of the component *)
(* ====================================================================== *)

(** *** [trim] *)

Module TrimFacts.

Import JSString.

Lemma trimStart_split (s : jsstring) :
  exists pre, s = pre ++ trimStart s /\ blank pre.
Proof.
  induction s as [|c r (pre & E & B)]; simpl.
  - exists []. split; [reflexivity | constructor].
  - destruct (is_space c) eqn:Hc.
    + exists (c :: pre). split; [simpl; congruence | constructor; assumption].
    + exists []. split; [reflexivity | constructor].
Qed.

Lemma trimStart_head (s : jsstring) (c : N) (r : jsstring) :
  trimStart s = c :: r -> is_space c = false.
Proof.
  induction s as [|d s IH]; simpl; [discriminate|].
  destruct (is_space d) eqn:Hd; [exact IH|].
  intros [= -> _]. exact Hd.
Qed.

Lemma trimStart_fixed (c : N) (r : jsstring) :
  is_space c = false -> trimStart (c :: r) = c :: r.
Proof. intros H. simpl. rewrite H. reflexivity. Qed.

Lemma trimStart_blank (s : jsstring) : trimStart s = [] <-> blank s.
Proof.
  split.
  - intros E. destruct (trimStart_split s) as (pre & Hs & B).
    rewrite E, app_nil_r in Hs. subst. exact B.
  - induction 1 as [|c r Hc _ IH]; simpl; [reflexivity|].
    rewrite Hc. exact IH.
Qed.

Lemma blank_rev (s : jsstring) : blank (rev s) <-> blank s.
Proof.
  unfold blank. rewrite !Forall_forall. split; intros H x Hx; apply H.
  - apply list_elem_of_In, in_rev. rewrite rev_involutive.
    apply list_elem_of_In. exact Hx.
  - apply list_elem_of_In, in_rev, list_elem_of_In. exact Hx.
Qed.

(** [trim] gives the empty string exactly on the strings made of white
    space only. *)
Lemma trim_blank (s : jsstring) : trim s = [] <-> blank s.
Proof.
  unfold trim, trimEnd. split.
  - intros E.
    assert (E' : trimStart (rev (trimStart s)) = []).
    { rewrite <- (rev_involutive (trimStart _)), E. reflexivity. }
    apply trimStart_blank in E'. apply (proj1 (blank_rev _)) in E'.
    destruct (trimStart s) as [|c r] eqn:Ets.
    + apply trimStart_blank. exact Ets.
    + apply trimStart_head in Ets. apply Forall_cons_1 in E' as [Hc _].
      simpl in Hc. congruence.
  - intros B. apply trimStart_blank in B. rewrite B. reflexivity.
Qed.

(** A string that [trimStart] leaves alone on both ends is left alone by
    [trim]. *)
Lemma trim_fixed (s : jsstring) :
  trimStart s = s -> trimStart (rev s) = rev s -> trim s = s.
Proof.
  intros E1 E2. unfold trim, trimEnd. rewrite E1, E2. apply rev_involutive.
Qed.

Lemma trim_idempotent (s : jsstring) : trim (trim s) = trim s.
Proof.
  apply trim_fixed.
  - (* the front of [trim s] is the front of [trimStart s] *)
    unfold trim, trimEnd.
    destruct (trimStart_split (rev (trimStart s))) as (pre & E & _).
    destruct (trimStart s) as [|c r] eqn:Ets; [reflexivity|].
    apply trimStart_head in Ets.
    apply (f_equal (@rev N)) in E. rewrite rev_involutive, rev_app_distr in E.
    destruct (rev (trimStart (rev (c :: r)))) as [|d u]; [reflexivity|].
    simpl in E. injection E as -> _. apply trimStart_fixed. exact Ets.
  - unfold trim, trimEnd. rewrite rev_involutive.
    destruct (trimStart (rev (trimStart s))) as [|c r] eqn:E; [reflexivity|].
    apply trimStart_fixed. eapply trimStart_head. exact E.
Qed.

End TrimFacts.

(** *** Runs, case by case *)

Section MoreRuns.

Context `{host : Host}.
Import JSString.

Create HintDb built.
#[local] Hint Constructors built_from : built.

Lemma built_alert (w w' : World) (msg : jsstring) :
  built_from w w' -> built_from w (alert msg w').
Proof. apply bf_emit. Qed.

Lemma built_on_error (w w' : World) (err : Exn) :
  built_from w w' -> built_from w (on_error err w').
Proof. intros H. unfold on_error. auto 12 using built_alert with built. Qed.

Lemma built_showDetection (w w' : World) (parsed : JSValue) (t : jsstring) :
  built_from w w' -> built_from w (showDetection parsed t w').
Proof.
  intros H. unfold showDetection.
  destruct (if truthy parsed then _ else _); auto 12 with built.
Qed.

Lemma built_resolved (reply : option jsstring) (w w0 : World) (o : option jsstring) :
  resolved reply w w0 o -> built_from w w0.
Proof. intros []; auto 12 with built. Qed.

Lemma built_afterDetect (w w' : World) (r2 : result JSValue) (outs : list FetchOutcome) :
  built_from w w' -> built_from w (drive outs (afterDetect r2 w')).
Proof.
  intros H. unfold afterDetect, try_.
  destruct r2 as [detectResp|err]; [destruct (completionText detectResp)|];
    rewrite drive_done;
    auto 12 using built_on_error, built_showDetection with built.
Qed.

Lemma built_afterRewrite (w w' : World) (s : State) (key : jsstring)
      (r1 : result JSValue) (outs : list FetchOutcome) :
  built_from w w' -> built_from w (drive outs (afterRewrite s key r1 w')).
Proof.
  intros H. unfold afterRewrite, try_.
  destruct r1 as [data|err]; [destruct (completionText data) as [h|err]|];
    try (rewrite drive_done; auto 12 using built_on_error).
  unfold callOpenAI. destruct outs as [|o2 rest]; simpl drive.
  - auto 12 with built.
  - apply built_afterDetect. auto 12 with built.
Qed.

(** Whatever the dialog answers and the network does, the world after a run
    comes from the world before it by those writes only. *)
Lemma run_built (reply : option jsstring) (outs : list FetchOutcome) (w : World) :
  built_from w (run reply outs w).
Proof.
  unfold run, handleHumanize.
  destruct (bool_decide (trim (input (st w)) = [])).
  { rewrite drive_done. apply built_alert, bf_here. }
  pose proof (built_resolved _ _ _ _ (resolveKey_cases reply w)) as B.
  destruct (resolveKey reply w) as [w0 [key|]]; simpl in B.
  2: { rewrite drive_done. exact B. }
  unfold callOpenAI. destruct outs as [|o1 rest]; simpl drive.
  - auto 12 with built.
  - apply built_afterRewrite. auto 12 with built.
Qed.

(** None of those writes touches the text, the settings or the stored keys
    outside the one session item. *)
Lemma built_frame (w w' : World) :
  built_from w w' ->
  input (st w') = input (st w) /\ mode (st w') = mode (st w)
  /\ tone (st w') = tone (st w) /\ temperature (st w') = temperature (st w)
  /\ windowKey w' = windowKey w /\ localStorage w' = localStorage w
  /\ (forall k, k <> str "openai_key" ->
                sessionStorage w' !! k = sessionStorage w !! k).
Proof.
  induction 1 as [| e w' _ IH | v w' _ IH | v w' _ IH | v w' _ IH | v w' _ IH
                  | v w' _ IH | v w' _ IH]; simpl;
    try (repeat split; reflexivity); try exact IH.
  destruct IH as (A & B & C & D & E & F & G). repeat split; try assumption.
  intros k Hk. rewrite lookup_insert_ne by congruence. apply G, Hk.
Qed.

Lemma showDetection_frame (parsed : JSValue) (t : jsstring) (w : World) :
  let w' := showDetection parsed t w in
  output (st w') = output (st w) /\ loading (st w') = loading (st w)
  /\ log w' = log w.
Proof.
  unfold showDetection.
  destruct (if truthy parsed then _ else _); repeat split.
Qed.



Lemma afterDetect_output (r2 : result JSValue) (outs : list FetchOutcome) (w : World) :
  output (st (drive outs (afterDetect r2 w))) = output (st w)
  /\ loading (st (drive outs (afterDetect r2 w))) = false.
Proof.
  unfold afterDetect, try_.
  destruct r2 as [detectResp|err]; [destruct (completionText detectResp) as [t|err]|];
    rewrite drive_done; try (split; reflexivity).
  destruct (showDetection_frame (parseDetection t) t w) as (A & _ & _).
  split; [exact A | reflexivity].
Qed.


Lemma alerts_app (l1 l2 : list Event) :
  alerts (l1 ++ l2) = alerts l1 ++ alerts l2.
Proof.
  induction l1 as [|e l1 IH]; [reflexivity|].
  destruct e; simpl; rewrite IH; reflexivity.
Qed.

(** Resolving the credential shows no alert and issues no request. *)
Lemma resolved_events (reply : option jsstring) (w w0 : World) (o : option jsstring) :
  resolved reply w w0 o ->
  exists evs, log w0 = log w ++ evs /\ fetches evs = [] /\ alerts evs = [].
Proof.
  intros [].
  - exists []. rewrite app_nil_r. repeat split.
  - exists [Prompt promptText]. repeat split.
  - exists [Prompt promptText]. repeat split.
Qed.

End MoreRuns.

(** *** JSON: a text that begins with an opening brace holds an object *)

Module JSONRootFacts.

Import JSON JSONInv JSONRoot.

Lemma bottom_cons (f : frame) (stk : list frame) :
  bottom_obj stk -> bottom_obj (f :: stk).
Proof.
  unfold bottom_obj. rewrite last_cons.
  destruct (last stk) as [[]|]; simpl; intros H; first [exact H | contradiction].
Qed.

Lemma bottom_single (acc : list (jsstring * JSValue)) (k : jsstring) :
  bottom_obj [FObj acc k].
Proof. exact I. Qed.

Lemma bottom_push (acc : list (jsstring * JSValue)) (k : jsstring) (stk : list frame) :
  stk = [] \/ bottom_obj stk -> bottom_obj (FObj acc k :: stk).
Proof. intros [-> | H]; [apply bottom_single | apply bottom_cons, H]. Qed.

Lemma bottom_pop_arr (acc : list JSValue) (stk : list frame) :
  bottom_obj (FArr acc :: stk) -> bottom_obj stk.
Proof.
  unfold bottom_obj. rewrite last_cons.
  destruct (last stk) as [[]|]; simpl; intros H; first [exact H | contradiction].
Qed.

Lemma bottom_pop_obj (acc : list (jsstring * JSValue)) (k : jsstring) (stk : list frame) :
  bottom_obj (FObj acc k :: stk) -> stk = [] \/ bottom_obj stk.
Proof.
  destruct stk as [|f stk]; [left; reflexivity|]. right.
  revert H. unfold bottom_obj. rewrite last_cons_cons. exact id.
Qed.

Lemma rooted_after (v : JSValue) (stk : list frame) :
  bottom_obj stk -> rooted (PAfter v stk).
Proof. destruct stk; [intros [] | exact id]. Qed.

Lemma rooted_closed (v : JSValue) (stk : list frame) :
  is_object v = true -> stk = [] \/ bottom_obj stk -> rooted (PAfter v stk).
Proof. intros Hv [-> | H]; [exact Hv | apply rooted_after, H]. Qed.

Lemma value_start_rooted (t : token) (stk : list frame) (st' : pstate) :
  bottom_obj stk -> value_start t stk = Some st' -> rooted st'.
Proof.
  intros Hs H. destruct t; simpl in H; inversion H; subst;
    first [apply rooted_after; exact Hs | exact Hs | right; exact Hs].
Qed.

Lemma pstep_rooted (st : pstate) (t : token) (st' : pstate) :
  rooted st -> pstep st t = Some st' -> rooted st'.
Proof.
  intros Hr H. destruct st as [stk|stk|stk|acc stk|acc k stk|v stk]; simpl in H.
  - eapply value_start_rooted; eassumption.
  - destruct t; try (eapply (value_start_rooted _ (FArr [] :: stk));
                     [apply bottom_cons; exact Hr | exact H]).
    inversion H; subst. apply rooted_after. exact Hr.
  - destruct t; inversion H; subst.
    + apply rooted_closed; [reflexivity | exact Hr].
    + exact Hr.
  - destruct t; inversion H; subst. exact Hr.
  - destruct t; inversion H; subst. apply bottom_push. exact Hr.
  - destruct stk as [|[acc|acc k] stk]; [discriminate|..]; simpl in Hr.
    + apply bottom_pop_arr in Hr.
      destruct t; inversion H; subst.
      * apply rooted_after. exact Hr.
      * apply bottom_cons. exact Hr.
    + apply bottom_pop_obj in Hr.
      destruct t; inversion H; subst.
      * apply rooted_closed; [reflexivity | exact Hr].
      * exact Hr.
Qed.

Lemma consume_rooted (ts : list token) :
  forall st v, rooted st -> consume st ts = Some v -> is_object v = true.
Proof.
  induction ts as [|t r IH]; intros st v Hr H; simpl in H.
  - destruct st as [stk|stk|stk|acc stk|acc k stk|v0 stk]; try discriminate.
    destruct stk; [|discriminate]. inversion H; subst. exact Hr.
  - destruct (pstep st t) as [st'|] eqn:E; simpl in H; [|discriminate].
    eapply IH; [eapply pstep_rooted; eassumption | exact H].
Qed.

Theorem parse_after_brace (rest : jsstring) (v : JSValue) :
  parse (123 :: rest) = Some v -> is_object v = true.
Proof.
  unfold parse. simpl lex.
  change (start 123) with (Some (LStart, [TLBrace])). simpl.
  destruct (lex LStart rest) as [ts|]; simpl; [|discriminate].
  apply consume_rooted. left. reflexivity.
Qed.

End JSONRootFacts.

(** *** More on the two index searches *)

Module SliceFacts.

Import JSString.

Lemma indexOf_first (pre x : jsstring) (c : N) :
  Forall (fun d => d <> c) pre ->
  indexOf (pre ++ c :: x) c = Z.of_nat (length pre).
Proof.
  induction 1 as [|d pre Hd _ IH]; simpl.
  - rewrite N.eqb_refl. reflexivity.
  - apply N.eqb_neq in Hd. rewrite Hd, IH.
    destruct (Z.of_nat (length pre)) eqn:E; lia.
Qed.

Lemma lastIndexOf_absent (s : jsstring) (c : N) :
  Forall (fun d => d <> c) s -> lastIndexOf s c = (-1)%Z.
Proof.
  induction 1 as [|d s Hd _ IH]; simpl; [reflexivity|].
  rewrite IH. apply N.eqb_neq in Hd. rewrite Hd. reflexivity.
Qed.

Lemma lastIndexOf_last (x post : jsstring) (c : N) :
  Forall (fun d => d <> c) post ->
  lastIndexOf (x ++ c :: post) c = Z.of_nat (length x).
Proof.
  intros Hp. induction x as [|d x IH]; simpl.
  - rewrite (lastIndexOf_absent _ _ Hp), N.eqb_refl. reflexivity.
  - rewrite IH. destruct (Z.of_nat (length x)) eqn:E; lia.
Qed.

(** The first occurrence is an occurrence. *)
Lemma indexOf_at (s : jsstring) (c : N) :
  (0 <= indexOf s c)%Z -> s !! Z.to_nat (indexOf s c) = Some c.
Proof.
  induction s as [|d r IH]; simpl; [lia|].
  destruct (d =? c) eqn:E.
  - intros _. apply N.eqb_eq in E. subst. reflexivity.
  - destruct (indexOf r c) as [|p|p] eqn:Ei; [| |lia]; intros _.
    + simpl. apply IH. lia.
    + replace (Z.to_nat (Z.pos p + 1)) with (S (Z.to_nat (Z.pos p))) by lia.
      simpl. apply IH. lia.
Qed.

(** [substring] between the ends of a middle part returns that part. *)
Lemma substring_middle (pre js post : jsstring) :
  substring (pre ++ js ++ post) (Z.of_nat (length pre))
            (Z.of_nat (length pre + length js)) = js.
Proof.
  unfold substring. rewrite !length_app.
  rewrite (Z.max_l _ 0), (Z.max_l _ 0) by lia.
  rewrite (Z.min_l (Z.of_nat (length pre))), (Z.min_l (Z.of_nat (length pre + length js))) by lia.
  rewrite Z.min_l, Z.max_r by lia.
  rewrite Nat2Z.id, drop_app_length.
  replace (Z.to_nat _) with (length js) by lia.
  apply take_app_length.
Qed.

(** With the first opening brace before the last closing one, the slice
    begins with that brace. *)
Lemma slice_begins_with_brace (t : jsstring) :
  (indexOf t 123 < lastIndexOf t 125)%Z ->
  indexOf t 123 <> (-1)%Z ->
  exists rest, substring t (indexOf t 123) (lastIndexOf t 125 + 1) = 123 :: rest.
Proof.
  intros Hlt Hs.
  pose proof (IndexFacts.indexOf_bounds t 123) as Hb.
  pose proof (IndexFacts.lastIndexOf_bounds t 125) as Hl.
  assert (H0 : (0 <= indexOf t 123)%Z) by lia.
  pose proof (indexOf_at t 123 H0) as Hat.
  unfold substring.
  rewrite (Z.max_l (indexOf t 123) 0), (Z.max_l (lastIndexOf t 125 + 1) 0) by lia.
  rewrite (Z.min_l (indexOf t 123)), (Z.min_l (lastIndexOf t 125 + 1)) by lia.
  rewrite Z.min_l, Z.max_r by lia.
  rewrite (drop_S _ _ _ Hat).
  destruct (Z.to_nat (lastIndexOf t 125 + 1 - indexOf t 123)) as [|n] eqn:En; [lia|].
  simpl. eexists. reflexivity.
Qed.

End SliceFacts.

(** *** Properties of the rest of the component *)

Section Coverage.

Context `{host : Host}.
Import JSString.

(** X1. The start handler shows its validation notice and stops exactly
    when every code unit of the input is white space (the empty input
    included). *)
Theorem validation_iff_blank (reply : option jsstring) (w : World) :
  handleHumanize reply w = Done (alert (str "Pega o escribe un texto primero.") w)
  <-> blank (input (st w)).
Proof.
  split.
  - intros H. apply TrimFacts.trim_blank.
    destruct (decide (trim (input (st w)) = [])) as [E|Hne]; [exact E|].
    exfalso. unfold handleHumanize in H.
    rewrite bool_decide_eq_false_2 in H by exact Hne.
    pose proof (resolveKey_cases reply w) as R.
    destruct (resolveKey reply w) as [w0 [key|]]; simpl in R.
    + unfold callOpenAI in H. discriminate H.
    + inversion R; subst. injection H as H.
      apply app_inv_head in H. discriminate H.
  - intros B. apply handleHumanize_blank, TrimFacts.trim_blank, B.
Qed.

(** X2. The text taken from a response is trimmed: trimming it again
    changes nothing, so what goes to the output cell and to the extractor
    has no white space at either end. *)
Theorem completion_text_is_trimmed (data : JSValue) (h : jsstring) :
  completionText data = Return h -> trim h = h.
Proof.
  unfold completionText.
  destruct data; try discriminate; cbv zeta;
    match goal with
    | |- match ?c with _ => _ end = _ -> _ => destruct c as [[]|]
    end;
    intros [= <-]; first [reflexivity | apply TrimFacts.trim_idempotent].
Qed.

(** X3. Both prompt builders put the text, as it is, between a line of
    three double quotes and a last line of three double quotes that ends
    the prompt; what comes before does not depend on the text (for the
    rewrite prompt it holds the tone, as it is). So two texts give the
    same prompt only if they are the same text. *)
Theorem prompts_embed_text :
  (forall tone text,
      buildHumanizePrompt tone text
      = humanizeHead tone ++ fence ++ nl ++ text ++ nl ++ fence)
  /\ (forall text,
        buildDetectPrompt text = detectHead ++ fence ++ nl ++ text ++ nl ++ fence)
  /\ (forall tone t1 t2,
        buildHumanizePrompt tone t1 = buildHumanizePrompt tone t2 -> t1 = t2)
  /\ (forall t1 t2, buildDetectPrompt t1 = buildDetectPrompt t2 -> t1 = t2).
Proof.
  assert (EH : forall tone text,
             buildHumanizePrompt tone text
             = humanizeHead tone ++ fence ++ nl ++ text ++ nl ++ fence).
  { intros tone text. unfold buildHumanizePrompt, humanizeHead, fence.
    rewrite <- !app_assoc. reflexivity. }
  assert (ED : forall text,
             buildDetectPrompt text
             = detectHead ++ fence ++ nl ++ text ++ nl ++ fence).
  { intros text. unfold buildDetectPrompt, detectHead, fence.
    rewrite <- !app_assoc. reflexivity. }
  split; [exact EH|]. split; [exact ED|]. split.
  - intros tone t1 t2 H. rewrite !EH in H.
    do 3 apply app_inv_head in H. apply app_inv_tail in H. exact H.
  - intros t1 t2 H. rewrite !ED in H.
    do 3 apply app_inv_head in H. apply app_inv_tail in H. exact H.
Qed.

(** X4. A key that is already there is used without a word: when the
    injected global is a non-empty string, or it is missing or empty and
    the local storage holds a non-empty key, that key is the credential, no
    dialog opens and the world stays as it is. The injected global wins
    over the local storage. *)
Theorem stored_key_wins (reply : option jsstring) (w : World) (key : jsstring) :
  windowKey w = Some key
  \/ (truthy_str (windowKey w) = false
      /\ localStorage w !! str "openai_key" = Some key) ->
  key <> [] ->
  resolveKey reply w = (w, Some key).
Proof.
  intros H Hk. unfold resolveKey, or_str.
  destruct key as [|c r]; [contradiction|].
  destruct H as [-> | [-> ->]]; reflexivity.
Qed.

(** X5. When no key is stored and the dialog is cancelled or left empty,
    the run does nothing but open the dialog: the state (results on
    display and [loading] included) and the storages stay as they were and
    no request is issued. *)
Theorem declined_dialog_changes_nothing (reply : option jsstring)
        (outs : list FetchOutcome) (w : World) :
  trim (input (st w)) <> [] ->
  truthy_str (or_str (windowKey w) (localStorage w !! str "openai_key")) = false ->
  truthy_str reply = false ->
  run reply outs w = emit (Prompt promptText) w.
Proof.
  intros Hne Hno Hr. unfold run, handleHumanize.
  rewrite bool_decide_eq_false_2 by exact Hne.
  unfold resolveKey.
  destruct (or_str _ _) as [[|c r]|]; try discriminate Hno;
    destruct reply as [[|c' r']|]; try discriminate Hr;
    apply drive_done.
Qed.

(** X6. A run issues at most two requests, the rewrite request and then the
    detection request, both with the credential of the run: never the
    detection alone, never a request again after a failure, none without a
    credential. *)
Theorem at_most_two_requests (reply : option jsstring)
        (outs : list FetchOutcome) (w : World) :
  issued w (run reply outs w)
  `prefix_of` requests_of (st w) (credential reply w).
Proof.
  destruct (run_extends reply outs w) as (evs & (_ & _ & Hlog) & Hpre & _).
  rewrite (issued_app _ _ _ Hlog). exact Hpre.
Qed.

(** X7. Every request a run issues is a POST of JSON to the chat
    completions address, carries the credential of the run as a bearer
    token, names the model gpt-4o-mini and holds exactly one message, of
    the user role. *)
Theorem requests_are_well_formed (reply : option jsstring)
        (outs : list FetchOutcome) (w : World) (r : Request) :
  r ∈ issued w (run reply outs w) ->
  exists key prompt,
    credential reply w = Some key
    /\ url r = str "https://api.openai.com/v1/chat/completions"
    /\ method r = str "POST"
    /\ contentType r = str "application/json"
    /\ authorization r = str "Bearer " ++ key
    /\ model (body r) = str "gpt-4o-mini"
    /\ messages (body r) = [MkMessage (str "user") prompt].
Proof.
  intros Hr.
  destruct (run_extends reply outs w) as (evs & (_ & _ & Hlog) & Hpre & _).
  rewrite (issued_app _ _ _ Hlog) in Hr.
  assert (Hin : r ∈ requests_of (st w) (credential reply w)).
  { destruct Hpre as [more ->]. apply elem_of_app. left. exact Hr. }
  clear Hpre Hr.
  destruct (credential reply w) as [key|]; simpl in Hin.
  - apply elem_of_cons in Hin as [-> | Hin];
      [|apply elem_of_cons in Hin as [-> | Hin]; [|inversion Hin]];
      eexists _, _; repeat split.
  - inversion Hin.
Qed.

(** X8. The [finally]: a started run whose two calls are answered, however
    they are answered, ends with [loading] off, so the start button is
    enabled again. *)
Theorem loading_is_switched_off (reply : option jsstring) (w : World) (key : jsstring)
        (o1 o2 : FetchOutcome) (rest : list FetchOutcome) :
  trim (input (st w)) <> [] ->
  credential reply w = Some key ->
  let w' := run reply (o1 :: o2 :: rest) w in
  loading (st w') = false /\ disabled (st w') BtnHumanize = false.
Proof.
  intros Hne Hk w'.
  assert (E : loading (st w') = false).
  { subst w'. rewrite (run_started _ _ _ _ _ Hne Hk).
    unfold afterRewrite, try_.
    destruct (callOpenAI_result o1) as [data|err];
      [destruct (completionText data) as [h|err]|];
      try (rewrite drive_done; reflexivity).
    unfold callOpenAI. simpl drive. apply afterDetect_output. }
  split; [exact E | exact E].
Qed.

(** X9. No run changes the input text or the settings: the text area, the
    mode, the tone and the temperature are after any run what they were
    before it. *)
Theorem run_keeps_text_and_settings (reply : option jsstring)
        (outs : list FetchOutcome) (w : World) :
  let w' := run reply outs w in
  input (st w') = input (st w)
  /\ mode (st w') = mode (st w)
  /\ tone (st w') = tone (st w)
  /\ temperature (st w') = temperature (st w).
Proof.
  destruct (built_frame _ _ (run_built reply outs w)) as (A & B & C & D & _).
  repeat split; assumption.
Qed.

(** X10. No button ever writes the local storage or the injected global,
    and the only session storage item a click can change is the key: after
    a click on any button and the run that may follow, every other item is
    as before. *)
Theorem clicks_keep_the_storages (b : Button) (reply : option jsstring)
        (outs : list FetchOutcome) (w : World) :
  let w' := drive outs (click b reply w) in
  windowKey w' = windowKey w
  /\ localStorage w' = localStorage w
  /\ (forall k, k <> str "openai_key" ->
                sessionStorage w' !! k = sessionStorage w !! k).
Proof.
  unfold click. destruct (disabled (st w) b).
  { rewrite drive_done. repeat split. }
  destruct b; simpl onClick; try rewrite drive_done.
  - destruct (built_frame _ _ (run_built reply outs w)) as (_ & _ & _ & _ & E & F & G).
    repeat split; assumption.
  - unfold handleCopy. destruct (output (st w)); repeat split.
  - repeat split.
  - unfold handleSave. destruct (output (st w)); repeat split.
Qed.


(** X12. Prose around the JSON object does not disturb the extractor: with
    no opening brace before the object and no closing brace after it, the
    slice handed to [JSON.parse] is the object text itself, and what is
    parsed is what the object text alone would give. *)
Theorem slice_ignores_noise (pre mid post : jsstring) :
  Forall (fun c => c <> 123) pre ->
  Forall (fun c => c <> 125) post ->
  jsonSlice (pre ++ (123 :: mid ++ [125]) ++ post) = Some (123 :: mid ++ [125])
  /\ parseDetection (pre ++ (123 :: mid ++ [125]) ++ post)
     = parseDetection (123 :: mid ++ [125]).
Proof.
  assert (G : forall pre post,
             Forall (fun c => c <> 123) pre ->
             Forall (fun c => c <> 125) post ->
             jsonSlice (pre ++ (123 :: mid ++ [125]) ++ post)
             = Some (123 :: mid ++ [125])).
  { clear pre post. intros pre post Hpre Hpost. unfold jsonSlice.
    assert (E1 : indexOf (pre ++ (123 :: mid ++ [125]) ++ post) 123
                 = Z.of_nat (length pre)).
    { apply (SliceFacts.indexOf_first pre ((mid ++ [125]) ++ post) 123 Hpre). }
    assert (E2 : lastIndexOf (pre ++ (123 :: mid ++ [125]) ++ post) 125
                 = Z.of_nat (length (pre ++ 123 :: mid))).
    { rewrite <- (SliceFacts.lastIndexOf_last (pre ++ 123 :: mid) post 125 Hpost).
      f_equal. simpl. rewrite <- !app_assoc. reflexivity. }
    assert (A : forall n : nat, (Z.of_nat n =? -1)%Z = false)
      by (intros n; apply Z.eqb_neq; lia).
    rewrite E1, E2, !A. simpl. f_equal.
    set (n := length (pre ++ 123 :: mid)).
    replace (Z.of_nat n + 1)%Z
      with (Z.of_nat (length pre + length (123 :: mid ++ [125]))).
    - exact (SliceFacts.substring_middle pre (123 :: mid ++ [125]) post).
    - subst n. rewrite length_app. simpl. rewrite length_app. simpl. lia. }
  intros Hpre Hpost. split; [apply G; assumption|].
  unfold parseDetection, tryParse. rewrite (G pre post Hpre Hpost).
  pose proof (G [] [] (Forall_nil_2 _) (Forall_nil_2 _)) as G0.
  simpl in G0. rewrite app_nil_r in G0. rewrite G0. reflexivity.
Qed.

(** X13. With the first opening brace before the last closing one, what
    the extractor hands on is null (the slice is not JSON) or an object,
    never an array, a string, a number or a boolean. *)
Theorem parsed_is_object_or_null (t : jsstring) :
  (indexOf t 123 < lastIndexOf t 125)%Z ->
  parseDetection t = JNull \/ JSONInv.is_object (parseDetection t) = true.
Proof.
  intros Hlt. unfold parseDetection, tryParse.
  destruct (jsonSlice t) as [js|] eqn:Es; [|left; reflexivity].
  destruct (jsonSlice_found _ _ Es) as (Hs & _ & ->).
  destruct (SliceFacts.slice_begins_with_brace t Hlt Hs) as [rest ->].
  destruct (JSON.parse (123 :: rest)) as [parsed|] eqn:Ep; [|left; reflexivity].
  right. exact (JSONRootFacts.parse_after_brace _ _ Ep).
Qed.

(** X14. Nothing the user does while the rewrite request is pending stops
    the run or changes what it asks next: when the answer comes, the
    output cell of the world as it is by then gets the rewritten text, and
    the detection request is built from the input the run started with. *)
Theorem pending_run_ignores_user (act : World -> World) (reply : option jsstring)
        (w : World) (key : jsstring) (o1 : FetchOutcome) (data : JSValue)
        (h : jsstring) :
  trim (input (st w)) <> [] ->
  credential reply w = Some key ->
  callOpenAI_result o1 = Return data ->
  completionText data = Return h ->
  answer o1 (meanwhile act (handleHumanize reply w))
  = callOpenAI (detectPayload (st w)) key afterDetect
      (setOutput h
         (act (emit (Fetch (openai_request (humanizePayload (st w)) key))
                    (reset (resolveKey reply w).1)))).
Proof.
  intros Hne Hk H1 Hh.
  rewrite (handleHumanize_started _ _ _ _ Hne (credential_resolveKey _ _ _ Hk)).
  unfold callOpenAI at 1. simpl. rewrite H1.
  unfold afterRewrite, try_. rewrite Hh. reflexivity.
Qed.


(** X16. After "Limpiar" the input and the result cells are empty and
    unscored. A click on the start button then does nothing while a run is
    in progress (the button is disabled) and otherwise only shows the
    validation notice; a click on "Copiar" or on "Descargar" only shows its
    notice that there is no text. [loading], the settings and the log are
    left as they were. *)
Theorem clear_then_actions (reply : option jsstring) (w : World) :
  let w' := handleClear w in
  click BtnHumanize reply w'
  = (if loading (st w) then Done w'
     else Done (alert (str "Pega o escribe un texto primero.") w'))
  /\ click BtnCopy reply w' = Done (alert (str "No hay texto para copiar.") w')
  /\ click BtnSave reply w' = Done (alert (str "No hay texto para descargar.") w')
  /\ input (st w') = []
  /\ output (st w') = []
  /\ scored (st w') = false
  /\ reason (st w') = JString []
  /\ loading (st w') = loading (st w)
  /\ tone (st w') = tone (st w)
  /\ temperature (st w') = temperature (st w)
  /\ log w' = log w.
Proof.
  intros w'. split; [|repeat split].
  unfold click. simpl disabled.
  replace (loading (st w')) with (loading (st w)) by reflexivity.
  destruct (loading (st w)); [reflexivity|].
  simpl onClick. apply handleHumanize_blank. reflexivity.
Qed.

(** X17. When the rewrite call comes back with a status outside 200..299,
    the user sees exactly one alert, made of the status in decimal and the
    body of the response as it came (it is not parsed), and no second
    request is issued. *)
Theorem http_error_is_shown_verbatim (reply : option jsstring) (w : World)
        (key : jsstring) (status : N) (text : jsstring) (rest : list FetchOutcome) :
  trim (input (st w)) <> [] ->
  credential reply w = Some key ->
  res_ok status = false ->
  let w' := run reply (Response status text :: rest) w in
  alerts (events_since w w')
  = [str "Error: " ++ str "OpenAI error: " ++ dec status ++ str " " ++ text]
  /\ issued w w' = [openai_request (humanizePayload (st w)) key].
Proof.
  intros Hne Hk Hs w'. subst w'.
  pose proof (credential_resolveKey _ _ _ Hk) as E.
  destruct (resolved_events _ _ _ _ (resolved_inv _ _ _ _ E))
    as (evs & Hlog & Hf & Ha).
  rewrite (run_first_fails _ _ _ _ _ _ Hne Hk (bad_status_raises _ _ Hs)).
  set (req1 := openai_request (humanizePayload (st w)) key).
  set (err := openai_error status text).
  assert (L : log (on_error err (emit (Fetch req1) (reset (resolveKey reply w).1)))
              = log w ++ (evs ++ [Fetch req1; ConsoleError err;
                                  Alert (str "Error: " ++ message err)])).
  { simpl. rewrite Hlog, <- !app_assoc. reflexivity. }
  split.
  - unfold events_since. rewrite L, drop_app_length, alerts_app, Ha. reflexivity.
  - rewrite (issued_app _ _ _ L), fetches_app, Hf. reflexivity.
Qed.

End Coverage.

(** *** These properties at concrete inputs *)

Section CoverageInstances.

Import JSString Examples MoreExamples.

Ltac unequal := let X := fresh in intros X; vm_compute in X; discriminate X.
Ltac decided := apply (bool_decide_unpack _); vm_compute; exact I.

Lemma completion_text_is_trimmed_witness :
  completionText (completionData (str "  Hola mundo ")) = Return (str "Hola mundo")
  /\ trim (str "Hola mundo") = str "Hola mundo".
Proof.
  split; [vm_compute; reflexivity|].
  apply (completion_text_is_trimmed (completionData (str "  Hola mundo "))).
  vm_compute. reflexivity.
Defined.

Lemma stored_key_wins_witness :
  windowKey keyedWorld = Some (str "sk-injected")
  /\ localStorage keyedWorld !! str "openai_key" = Some (str "sk-local")
  /\ str "sk-injected" <> []
  /\ resolveKey (Some (str "sk-typed")) keyedWorld
     = (keyedWorld, Some (str "sk-injected")).
Proof.
  split; [reflexivity|]. split; [vm_compute; reflexivity|]. split; [unequal|].
  apply (stored_key_wins (Some (str "sk-typed")) keyedWorld (str "sk-injected")).
  - left. reflexivity.
  - unequal.
Defined.

Lemma declined_dialog_changes_nothing_witness :
  trim (input (st shownWorld)) <> []
  /\ truthy_str (or_str (windowKey shownWorld)
                        (localStorage shownWorld !! str "openai_key")) = false
  /\ run None [completion (str "Hola")] shownWorld
     = emit (Prompt promptText) shownWorld.
Proof.
  split; [unequal|]. split; [vm_compute; reflexivity|].
  apply (declined_dialog_changes_nothing None [completion (str "Hola")] shownWorld).
  - unequal.
  - vm_compute. reflexivity.
  - reflexivity.
Defined.

Lemma requests_are_well_formed_witness :
  let r := openai_request (detectPayload (st demoWorld)) demoKey in
  r ∈ issued demoWorld (run (Some demoKey) [completion (str "Hola")] demoWorld)
  /\ exists key prompt,
       credential (Some demoKey) demoWorld = Some key
       /\ url r = str "https://api.openai.com/v1/chat/completions"
       /\ method r = str "POST"
       /\ contentType r = str "application/json"
       /\ authorization r = str "Bearer " ++ key
       /\ model (body r) = str "gpt-4o-mini"
       /\ messages (body r) = [MkMessage (str "user") prompt].
Proof.
  intros r.
  assert (Hin : r ∈ issued demoWorld
                      (run (Some demoKey) [completion (str "Hola")] demoWorld)).
  { apply (list_elem_of_lookup_2 _ 1%nat). vm_compute. reflexivity. }
  split; [exact Hin|].
  exact (requests_are_well_formed (Some demoKey) [completion (str "Hola")]
                                  demoWorld r Hin).
Defined.

Lemma loading_is_switched_off_witness :
  trim (input (st demoWorld)) <> []
  /\ credential (Some demoKey) demoWorld = Some demoKey
  /\ let w' := run (Some demoKey)
                   [completion (str "Hola"); Response 503 (str "busy")] demoWorld in
     loading (st w') = false /\ disabled (st w') BtnHumanize = false.
Proof.
  split; [unequal|]. split; [vm_compute; reflexivity|].
  apply (loading_is_switched_off (Some demoKey) demoWorld demoKey
           (completion (str "Hola")) (Response 503 (str "busy")) []).
  - unequal.
  - vm_compute. reflexivity.
Defined.


Lemma slice_ignores_noise_witness :
  Forall (fun c => c <> 123) (str "Claro: ")
  /\ Forall (fun c => c <> 125) (str " Espero que sirva.")
  /\ wrapped = str "Claro: "
               ++ (123 :: strq "'probability': 42, 'explanation': 'ok'" ++ [125])
               ++ str " Espero que sirva."
  /\ jsonSlice wrapped = Some (strq "{'probability': 42, 'explanation': 'ok'}")
  /\ parseDetection wrapped
     = parseDetection (strq "{'probability': 42, 'explanation': 'ok'}").
Proof.
  split; [decided|]. split; [decided|]. split; [vm_compute; reflexivity|].
  apply (slice_ignores_noise (str "Claro: ")
           (strq "'probability': 42, 'explanation': 'ok'")
           (str " Espero que sirva.")); decided.
Defined.

Lemma parsed_is_object_or_null_witness :
  (indexOf wrapped 123 < lastIndexOf wrapped 125)%Z
  /\ (parseDetection wrapped = JNull
      \/ JSONInv.is_object (parseDetection wrapped) = true).
Proof.
  split; [vm_compute; reflexivity|].
  apply (parsed_is_object_or_null wrapped). vm_compute. reflexivity.
Defined.

Lemma pending_run_ignores_user_witness :
  trim (input (st demoWorld)) <> []
  /\ credential (Some demoKey) demoWorld = Some demoKey
  /\ callOpenAI_result (completion (str "Hola")) = Return (completionData (str "Hola"))
  /\ completionText (completionData (str "Hola")) = Return (str "Hola")
  /\ answer (completion (str "Hola"))
       (meanwhile handleClear (handleHumanize (Some demoKey) demoWorld))
     = callOpenAI (detectPayload (st demoWorld)) demoKey afterDetect
         (setOutput (str "Hola")
            (handleClear
               (emit (Fetch (openai_request (humanizePayload (st demoWorld)) demoKey))
                     (reset (resolveKey (Some demoKey) demoWorld).1)))).
Proof.
  split; [unequal|]. do 3 (split; [vm_compute; reflexivity|]).
  apply (pending_run_ignores_user handleClear (Some demoKey) demoWorld demoKey
           (completion (str "Hola")) (completionData (str "Hola")) (str "Hola")).
  - unequal.
  - vm_compute. reflexivity.
  - vm_compute. reflexivity.
  - vm_compute. reflexivity.
Defined.


Lemma http_error_is_shown_verbatim_witness :
  trim (input (st demoWorld)) <> []
  /\ credential (Some demoKey) demoWorld = Some demoKey
  /\ res_ok 429 = false
  /\ let w' := run (Some demoKey)
                   [Response 429 (str "slow down"); completion (str "Hola")]
                   demoWorld in
     alerts (events_since demoWorld w') = [str "Error: OpenAI error: 429 slow down"]
     /\ issued demoWorld w'
        = [openai_request (humanizePayload (st demoWorld)) demoKey].
Proof.
  split; [unequal|]. do 2 (split; [vm_compute; reflexivity|]).
  apply (http_error_is_shown_verbatim (Some demoKey) demoWorld demoKey 429
           (str "slow down") [completion (str "Hola")]).
  - unequal.
  - vm_compute. reflexivity.
  - reflexivity.
Defined.

End CoverageInstances.
